(** * go-ratelimit: a rate-limiting wrapper for [net.Conn]

    Shallow embedding of [ratelimit/net.go] and the properties of its
    constructor [New], of the throttled [Read] and [Write] and of the limit
    mutators [SetReadLimit] and [SetWriteLimit].

    Conventions.
    - Go's [int] and [int64] are carried by [Z].  The conversion [int64(x)]
      of an [int] keeps the value; the [int64] operations that can leave the
      64-bit range ([*], [-], [/]) are written with their wrap-around.
    - [time.Time] is the number of nanoseconds since the zero instant, so
      [IsZero] is the test against 0; [Sub] saturates like the library's.
    - [time.Now], [time.Sleep] and the calls on the embedded [net.Conn] are
      effects: they run in a state monad over a [World] that holds the
      future clock readings, the state of every connection object and the
      trace of the effects performed so far, newest first.
    - A nil interface call and an integer division by zero are panics of
      the monad. *)

From Stdlib Require Import ZArith List String Bool Lia.
From Stdlib.Strings Require Import Byte.
Import ListNotations.
Open Scope Z_scope.

Set Implicit Arguments.

(** ** 64-bit integer arithmetic *)

Definition int := Z.
Definition int64 := Z.

Definition min_int64 : Z := - 2 ^ 63.
Definition max_int64 : Z := 2 ^ 63 - 1.

(** Reduction of an integer to the signed 64-bit range. *)
Definition wrap64 (z : Z) : int64 := (z + 2 ^ 63) mod 2 ^ 64 - 2 ^ 63.

Definition in_int64 (z : Z) : Prop := min_int64 <= z <= max_int64.

(** [int64(x)] for [x] of type [int]: value preserving at every width of
    [int]. *)
Definition int64_of_int (x : int) : int64 := x.

Definition mul64 (a b : int64) : int64 := wrap64 (a * b).
Definition sub64 (a b : int64) : int64 := wrap64 (a - b).

(** Go's [/] on integers truncates toward zero and panics on a zero
    divisor: [None] stands for that panic. *)
Definition div64 (a b : int64) : option int64 :=
  if b =? 0 then None else Some (wrap64 (Z.quot a b)).

(** ** The part of package [time] the wrapper uses *)

Module time.

Definition Duration := int64.
Definition Time := Z.

Definition Second : Duration := 1000000000.

Definition Nanoseconds (d : Duration) : int64 := d.

Definition IsZero (t : Time) : bool := t =? 0.

(** [t.Sub(u)]: the duration [t - u], or the largest (smallest) duration
    when the difference does not fit. *)
Definition Sub (t u : Time) : Duration :=
  if t - u >? max_int64 then max_int64
  else if t - u <? min_int64 then min_int64
  else t - u.

End time.

(** ** Errors *)

(** An [error] is nil ([None]) or carries a message. *)
Definition error := option string.

Definition errors_New (msg : string) : error := Some msg.

(** ** The [net.Conn] interface *)

(** What the wrapper needs of the object behind a [net.Conn]: [Read] fills
    the caller's buffer and answers a count and an error, [Write] answers a
    count and an error; both may change the object. *)
Class NetConn (C : Type) : Type := {
  conn_Read : C -> list byte -> C * list byte * int * error;
  conn_Write : C -> list byte -> C * int * error
}.

(** A connection that answers from a script: each call consumes the next
    scripted count and error, and an exhausted script answers end of
    stream. *)
Definition script := list (int * error).

Definition script_Read (s : script) (b : list byte)
  : script * list byte * int * error :=
  match s with
  | [] => ([], b, 0, Some "EOF"%string)
  | (n, e) :: s' => (s', b, n, e)
  end.

Definition script_Write (s : script) (b : list byte)
  : script * int * error :=
  match s with
  | [] => ([], 0, Some "EOF"%string)
  | (n, e) :: s' => (s', n, e)
  end.

#[export] Instance ScriptedConn : NetConn script := {
  conn_Read := script_Read;
  conn_Write := script_Write
}.

(** A [net.Conn] interface value: nil, or a reference to a connection
    object of the world. *)
Definition handle := nat.

Inductive netConn : Type :=
| nilConn
| connRef (h : handle).

(** ** The wrapper *)

Record RateLimitedConn : Type := mkRLC {
  Conn : netConn;       (* underlying network connection *)
  rlim : int;           (* in bytes/second, 0 means no limit *)
  wlim : int;
  rtime : time.Time;    (* time of last actual read/write *)
  wtime : time.Time
}.

Definition set_rlim (v : int) (r : RateLimitedConn) : RateLimitedConn :=
  mkRLC (Conn r) v (wlim r) (rtime r) (wtime r).
Definition set_wlim (v : int) (r : RateLimitedConn) : RateLimitedConn :=
  mkRLC (Conn r) (rlim r) v (rtime r) (wtime r).
Definition set_rtime (t : time.Time) (r : RateLimitedConn) : RateLimitedConn :=
  mkRLC (Conn r) (rlim r) (wlim r) t (wtime r).
Definition set_wtime (t : time.Time) (r : RateLimitedConn) : RateLimitedConn :=
  mkRLC (Conn r) (rlim r) (wlim r) (rtime r) t.

(** ** Effects *)

Inductive event : Type :=
| EvNow (t : time.Time)
| EvRead (h : handle) (b : list byte) (n : int) (err : error)
| EvWrite (h : handle) (b : list byte) (n : int) (err : error)
| EvSleep (d : time.Duration).

Inductive panic : Type :=
| NilDereference
| DivideByZero.

Section Model.

Context {C : Type} {NC : NetConn C}.

Record World : Type := mkWorld {
  clock : nat -> time.Time;   (* the k-th reading of the clock *)
  ticks : nat;                (* readings taken so far *)
  conns : handle -> C;        (* the connection objects *)
  trace : list event          (* effects so far, newest first *)
}.

Inductive Outcome (A : Type) : Type :=
| Ok (a : A) (w : World)
| Panicked (p : panic) (w : World).

Definition M (A : Type) : Type := World -> Outcome A.

Definition ret {A} (a : A) : M A := fun w => Ok a w.

Definition bind {A B} (m : M A) (k : A -> M B) : M B :=
  fun w =>
    match m w with
    | Ok a w' => k a w'
    | Panicked _ p w' => Panicked B p w'
    end.

Definition raise {A} (p : panic) : M A := fun w => Panicked A p w.

Definition log (e : event) (w : World) : World :=
  mkWorld (clock w) (ticks w) (conns w) (e :: trace w).

Definition emit (e : event) : M unit := fun w => Ok tt (log e w).

(** [time.Now()] *)
Definition time_Now : M time.Time :=
  fun w =>
    let t := clock w (ticks w) in
    Ok t (mkWorld (clock w) (S (ticks w)) (conns w) (EvNow t :: trace w)).

(** [time.Sleep(d)] *)
Definition time_Sleep (d : time.Duration) : M unit := emit (EvSleep d).

Definition store (h : handle) (c : C) (w : World) : World :=
  mkWorld (clock w) (ticks w)
          (fun h' => if Nat.eqb h' h then c else conns w h') (trace w).

(** [conn.Read(b)] through the interface value [conn] *)
Definition Conn_Read (conn : netConn) (b : list byte)
  : M (list byte * int * error) :=
  match conn with
  | nilConn => raise NilDereference
  | connRef h =>
      fun w =>
        let '(c', b', n, err) := conn_Read (conns w h) b in
        Ok (b', n, err) (log (EvRead h b n err) (store h c' w))
  end.

(** [conn.Write(b)] through the interface value [conn] *)
Definition Conn_Write (conn : netConn) (b : list byte)
  : M (int * error) :=
  match conn with
  | nilConn => raise NilDereference
  | connRef h =>
      fun w =>
        let '(c', n, err) := conn_Write (conns w h) b in
        Ok (n, err) (log (EvWrite h b n err) (store h c' w))
  end.

End Model.

Arguments World C : clear implicits.
Arguments Outcome C A : clear implicits.
Arguments M C A : clear implicits.


Declare Scope go_scope.
Delimit Scope go_scope with go.

Notation "x <- m ;; k" := (bind m (fun x => k))
  (at level 61, m at next level, right associativity) : go_scope.
Notation "' p <- m ;; k" := (bind m (fun p => k))
  (at level 61, p pattern, m at next level, right associativity) : go_scope.

Open Scope go_scope.

(** ** The package *)

Section Package.

Context {C : Type} {NC : NetConn C}.

(** The integer division of the throttling computation, with its panic. *)
Definition checked_div (a b : int64) : M C int64 :=
  match div64 a b with
  | Some q => ret q
  | None => raise DivideByZero
  end.

(** [New]: the result [rlc] is a [net.Conn] interface value, nil ([None])
    or holding a [RateLimitedConn]; the composite literal leaves [rtime]
    and [wtime] at the zero [time.Time]. *)
Definition New (conn : netConn) (readLimit writeLimit : int)
  : M C (option RateLimitedConn * error) :=
  if (readLimit <? 0) || (writeLimit <? 0) then
    ret (None, errors_New "read/write limits cannot be negative")
  else
    ret (Some (mkRLC conn readLimit writeLimit 0 0), None).

(** The body of [Read], run on the method's own [rlc]; it answers the final
    value of that [rlc] next to the results. *)
Definition Read_body (rlc : RateLimitedConn) (b : list byte)
  : M C (RateLimitedConn * (list byte * int * error)) :=
  (* fast path if there is no limit *)
  if rlim rlc <=? 0 then
    r <- Conn_Read (Conn rlc) b ;;
    ret (rlc, r)
  else
    (* lazy initialization *)
    rlc <- (if time.IsZero (rtime rlc)
            then t0 <- time_Now ;; ret (set_rtime t0 rlc)
            else ret rlc) ;;
    (* perform the read operation *)
    ' (b', n, err) <- Conn_Read (Conn rlc) b ;;
    (* how long since the last read? *)
    t <- time_Now ;;
    let d := time.Nanoseconds (time.Sub t (rtime rlc)) in
    (* allowed time *)
    timePerByte <- checked_div (time.Nanoseconds time.Second)
                               (int64_of_int (rlim rlc)) ;;
    let timeForNBytes := mul64 timePerByte (int64_of_int n) in
    (* sleep if we have to *)
    _ <- (if (n >? 0) && (d <? timeForNBytes)
          then time_Sleep (sub64 timeForNBytes d)
          else ret tt) ;;
    (* remember when last read finished *)
    ret (set_rtime t rlc, (b', n, err)).

(** The body of [Write]. *)
Definition Write_body (rlc : RateLimitedConn) (b : list byte)
  : M C (RateLimitedConn * (int * error)) :=
  (* fast path if there is no limit *)
  if wlim rlc <=? 0 then
    r <- Conn_Write (Conn rlc) b ;;
    ret (rlc, r)
  else
    (* lazy initialization *)
    rlc <- (if time.IsZero (wtime rlc)
            then t0 <- time_Now ;; ret (set_wtime t0 rlc)
            else ret rlc) ;;
    (* perform the write operation *)
    ' (n, err) <- Conn_Write (Conn rlc) b ;;
    (* how long since the last write? *)
    t <- time_Now ;;
    let d := time.Nanoseconds (time.Sub t (wtime rlc)) in
    (* allowed time *)
    timePerByte <- checked_div (time.Nanoseconds time.Second)
                               (int64_of_int (wlim rlc)) ;;
    let timeForNBytes := mul64 timePerByte (int64_of_int n) in
    (* sleep if we have to *)
    _ <- (if (n >? 0) && (d <? timeForNBytes)
          then time_Sleep (sub64 timeForNBytes d)
          else ret tt) ;;
    (* remember when last write finished *)
    ret (set_wtime t rlc, (n, err)).

(** The body of [SetReadLimit]. *)
Definition SetReadLimit_body (rlc : RateLimitedConn) (lim : int)
  : M C (RateLimitedConn * error) :=
  if lim <? 0 then
    ret (rlc, errors_New "read limit cannot be negative")
  else
    ret (set_rlim lim rlc, None).

(** The body of [SetWriteLimit]. *)
Definition SetWriteLimit_body (rlc : RateLimitedConn) (lim : int)
  : M C (RateLimitedConn * error) :=
  if lim <? 0 then
    ret (rlc, errors_New "write limit cannot be negative")
  else
    ret (set_wlim lim rlc, None).

(** All four methods are declared on a value receiver,
    [func (rlc RateLimitedConn) ...]: the body runs on a copy of the
    caller's wrapper and the copy is dropped when the method returns. *)
Definition value_receiver {T R : Type} (body : T -> M C (T * R)) (recv : T)
  : M C R :=
  ' (_, r) <- body recv ;; ret r.

Definition Read (rlc : RateLimitedConn) (b : list byte)
  : M C (list byte * int * error) :=
  value_receiver (fun rlc => Read_body rlc b) rlc.

Definition Write (rlc : RateLimitedConn) (b : list byte)
  : M C (int * error) :=
  value_receiver (fun rlc => Write_body rlc b) rlc.

Definition SetReadLimit (rlc : RateLimitedConn) (lim : int) : M C error :=
  value_receiver (fun rlc => SetReadLimit_body rlc lim) rlc.

Definition SetWriteLimit (rlc : RateLimitedConn) (lim : int) : M C error :=
  value_receiver (fun rlc => SetWriteLimit_body rlc lim) rlc.

(** ** A caller *)

(** A caller holds one wrapper value and calls its methods in sequence. *)
Inductive call : Type :=
| CallRead (b : list byte)
| CallWrite (b : list byte)
| CallSetReadLimit (lim : int)
| CallSetWriteLimit (lim : int).

Inductive result : Type :=
| RetRead (b : list byte) (n : int) (err : error)
| RetWrite (n : int) (err : error)
| RetSet (err : error).

(** The body a call runs, on the receiver it is given. *)
Definition body_of (c : call) (rlc : RateLimitedConn)
  : M C (RateLimitedConn * result) :=
  match c with
  | CallRead b =>
      ' (rlc', (b', n, err)) <- Read_body rlc b ;; ret (rlc', RetRead b' n err)
  | CallWrite b =>
      ' (rlc', (n, err)) <- Write_body rlc b ;; ret (rlc', RetWrite n err)
  | CallSetReadLimit lim =>
      ' (rlc', err) <- SetReadLimit_body rlc lim ;; ret (rlc', RetSet err)
  | CallSetWriteLimit lim =>
      ' (rlc', err) <- SetWriteLimit_body rlc lim ;; ret (rlc', RetSet err)
  end.

(** One call through the caller's wrapper: the method and its result. *)
Definition invoke (rlc : RateLimitedConn) (c : call) : M C result :=
  match c with
  | CallRead b => ' (b', n, err) <- Read rlc b ;; ret (RetRead b' n err)
  | CallWrite b => ' (n, err) <- Write rlc b ;; ret (RetWrite n err)
  | CallSetReadLimit lim => err <- SetReadLimit rlc lim ;; ret (RetSet err)
  | CallSetWriteLimit lim => err <- SetWriteLimit rlc lim ;; ret (RetSet err)
  end.

(** A sequence of calls through the wrapper the caller holds.  The state
    of the caller is the wrapper value in its variable; a method call
    passes a copy of it and assigns nothing to it, so the variable is
    carried to the next call as it is.  The results are listed in call
    order, next to the wrapper the caller holds in the end. *)
Fixpoint run (cs : list call) (rlc : RateLimitedConn)
  : M C (RateLimitedConn * list result) :=
  match cs with
  | [] => ret (rlc, [])
  | c :: cs' =>
      r <- invoke rlc c ;;
      ' (rlc', rs) <- run cs' rlc ;;
      ret (rlc', r :: rs)
  end.

(** What the same sequence would do if every method had a pointer
    receiver, [func (rlc *RateLimitedConn) ...]: each body runs on the
    caller's wrapper itself and its assignments stay. *)
Fixpoint run_shared (cs : list call) (rlc : RateLimitedConn)
  : M C (RateLimitedConn * list result) :=
  match cs with
  | [] => ret (rlc, [])
  | c :: cs' =>
      ' (rlc1, r) <- body_of c rlc ;;
      ' (rlc', rs) <- run_shared cs' rlc1 ;;
      ret (rlc', r :: rs)
  end.

(** ** Observations on traces *)

(** The throttle sleeps of a trace, newest first. *)
Fixpoint sleeps (tr : list event) : list time.Duration :=
  match tr with
  | [] => []
  | EvSleep d :: tr' => d :: sleeps tr'
  | _ :: tr' => sleeps tr'
  end.

(** The calls on the underlying connections in a trace, newest first. *)
Fixpoint transfers (tr : list event) : list event :=
  match tr with
  | [] => []
  | EvRead h b n err :: tr' => EvRead h b n err :: transfers tr'
  | EvWrite h b n err :: tr' => EvWrite h b n err :: transfers tr'
  | _ :: tr' => transfers tr'
  end.

(** Mapping the answer of an outcome. *)
Definition omap {A B : Type} (f : A -> B) (o : Outcome C A) : Outcome C B :=
  match o with
  | Ok a w => Ok (f a) w
  | Panicked _ p w => Panicked B p w
  end.

End Package.

(** ** A caller whose calls all start from one wrapper value *)

Section Frozen.

Context {C : Type} {NC : NetConn C}.

(** The results of a sequence of calls when the body of every call starts
    from the same wrapper value [rlc0] and the [rlc] it ends with is
    dropped. *)
Fixpoint results_on (rlc0 : RateLimitedConn) (cs : list call)
  : M C (list result) :=
  match cs with
  | [] => ret []
  | c :: cs' =>
      ' (_, r) <- body_of c rlc0 ;;
      rs <- results_on rlc0 cs' ;;
      ret (r :: rs)
  end.

End Frozen.

(** ** Worlds and wrappers used in the examples *)

(** A world with one scripted connection behind every handle, whose clock
    answers the listed readings in order (and 0 afterwards). *)
Definition scripted_world (times : list time.Time) (s : script)
  : World script :=
  mkWorld (fun k => nth k times 0) 0 (fun _ => s) [].

(** A buffer of [k] zero bytes. *)
Definition buffer (k : nat) : list byte := repeat x00 k.

(** Clock readings of the examples, in nanoseconds: 5 s, and 1 ms, 300 ms
    and 301 ms later. *)
Definition T0 : time.Time := 5000000000.
Definition T1 : time.Time := 5001000000.
Definition T2 : time.Time := 5300000000.
Definition T3 : time.Time := 5301000000.

(** A world whose connection answers two full packets of 1024 bytes. *)
Definition two_packets : World script :=
  scripted_world [T0; T1; T2; T3] [(1024, None); (1024, None)].

(** The wrappers [New] builds on connection 0 with limits [(0, 0)],
    [(4096, 0)] and [(0, 4096)]. *)
Definition unlimited0 : RateLimitedConn := mkRLC (connRef 0%nat) 0 0 0 0.
Definition read4096 : RateLimitedConn := mkRLC (connRef 0%nat) 4096 0 0 0.
Definition write4096 : RateLimitedConn := mkRLC (connRef 0%nat) 0 4096 0 0.

(** ** The quantities of one throttled operation *)

Section Quantities.

Context {C : Type}.

(** The baseline a throttled operation measures from: the stored
    timestamp, or the reading the lazy initialization takes. *)
Definition baseline (stored : time.Time) (w : World C) : time.Time :=
  if time.IsZero stored then clock w (ticks w) else stored.

(** The clock readings taken before the reading that follows the
    transfer. *)
Definition ticks_before_transfer (stored : time.Time) (w : World C) : nat :=
  if time.IsZero stored then S (ticks w) else ticks w.

(** The reading taken when the underlying transfer has returned. *)
Definition completion (stored : time.Time) (w : World C) : time.Time :=
  clock w (ticks_before_transfer stored w).

(** The events of the lazy initialization. *)
Definition init_events (stored : time.Time) (w : World C) : list event :=
  if time.IsZero stored then [EvNow (clock w (ticks w))] else [].

(** The events of the sleep step, for [n] bytes, elapsed time [d] and
    allowed time [allowed]. *)
Definition sleep_events (n : int) (d allowed : int64) : list event :=
  if (n >? 0) && (d <? allowed) then [EvSleep (sub64 allowed d)] else [].

End Quantities.

(** ** Observing outcomes *)

Section Observations.

Context {C : Type}.

(** The answer of a run and the trace it leaves; [None] for a panic. *)
Definition answer_and_trace {A : Type} (o : Outcome C A)
  : option (A * list event) :=
  match o with
  | Ok a w => Some (a, trace w)
  | Panicked _ _ _ => None
  end.

(** The world a run leaves, panic or not. *)
Definition world_of {A : Type} (o : Outcome C A) : World C :=
  match o with
  | Ok _ w => w
  | Panicked _ _ w => w
  end.

(** The connection objects after a call on the one behind [h] left it in
    state [c]. *)
Definition conns_after (h : handle) (c : C) (w : World C) : handle -> C :=
  fun h' => if Nat.eqb h' h then c else conns w h'.

End Observations.

(** Unfolding of the monad and of the record updates. *)
Ltac run_body :=
  cbv beta iota zeta delta
      [bind ret raise time_Now time_Sleep emit log store
       Conn_Read Conn_Write checked_div omap
       set_rlim set_wlim set_rtime set_wtime
       Conn rlim wlim rtime wtime clock ticks conns trace fst snd].

(** ** Totals over traces *)

Definition total (l : list Z) : Z := fold_right Z.add 0 l.

(** The time a trace asks [time.Sleep] for, in nanoseconds. *)
Definition slept (tr : list event) : Z := total (sleeps tr).

(** The bytes the reads (the writes) of a trace moved; a count of 0 or
    less moves nothing. *)
Fixpoint bytes_read (tr : list event) : Z :=
  match tr with
  | [] => 0
  | EvRead _ _ n _ :: tr' => Z.max 0 n + bytes_read tr'
  | _ :: tr' => bytes_read tr'
  end.

Fixpoint bytes_written (tr : list event) : Z :=
  match tr with
  | [] => 0
  | EvWrite _ _ n _ :: tr' => Z.max 0 n + bytes_written tr'
  | _ :: tr' => bytes_written tr'
  end.

(** The calls of a sequence that reach the connection. *)
Definition is_transfer (c : call) : bool :=
  match c with
  | CallRead _ | CallWrite _ => true
  | CallSetReadLimit _ | CallSetWriteLimit _ => false
  end.

(** The time [k] consecutive operations spend in their transfers when each
    takes one clock reading before and one after it, from reading [t] of
    the clock [ck] on. *)
Fixpoint busy (ck : nat -> time.Time) (t : nat) (k : nat) : Z :=
  match k with
  | O => 0
  | S k' => time.Sub (ck (S t)) (ck t) + busy ck (S (S t)) k'
  end.

Section Clocks.

Context {C : Type}.

(** A clock that never runs backwards. *)
Definition clock_monotone (w : World C) : Prop :=
  forall i j : nat, (i <= j)%nat -> clock w i <= clock w j.

End Clocks.

(** A connection that accepts every write in full and has nothing to
    read; its state counts the bytes written. *)
Definition sink_Read (s : Z) (b : list byte) : Z * list byte * int * error :=
  (s, b, 0, Some "EOF"%string).

Definition sink_Write (s : Z) (b : list byte) : Z * int * error :=
  (s + Z.of_nat (List.length b), Z.of_nat (List.length b), None).

#[export] Instance SinkConn : NetConn Z := {
  conn_Read := sink_Read;
  conn_Write := sink_Write
}.

(** A connection type whose [Write] always takes the whole buffer. *)
Definition writes_in_full (C : Type) {NC : NetConn C} : Prop :=
  forall (c : C) (b : list byte),
    exists c' : C, conn_Write c b = (c', Z.of_nat (List.length b), None).

Arguments writes_in_full C {NC}.

(** ** The client of the connection test *)

(** What [testClient] reports through [t.Error], [t.Errorf] and
    [t.Fatal]. *)
Inductive report : Type :=
| ReportError (msg : string)        (* t.Error(err), t.Fatal(err) *)
| ReportShort (n lpack : int).      (* "wrote %d bytes instead of %d bytes" *)

(** [make([]byte, len)] for [0 <= len]: [len] zero bytes.  (Go panics on a
    negative length; the properties below are stated for [0 <= len].) *)
Definition make_bytes (len : int) : list byte := repeat x00 (Z.to_nat len).

Section TestClient.

Context {C : Type} {NC : NetConn C}.

(** The loop of [testClient], "dump data into connection", with [iters]
    iterations left and the reports [t] made so far. *)
Fixpoint testClient_loop (rlc : RateLimitedConn) (lpack : int) (iters : nat)
         (t : list report) : M C (list report) :=
  match iters with
  | O => ret t
  | S iters' =>
      let data := make_bytes lpack in
      ' (n, err) <- Write rlc data ;;
      let t := match err with
               | Some msg => t ++ [ReportError msg]
               | None => t
               end in
      let t := if n =? lpack then t else t ++ [ReportShort n lpack] in
      testClient_loop rlc lpack iters' t
  end.

(** [testClient] from the wrapping of the dialled connection [c] to the
    end of its loop: [New(c, 0, info.wlim)], [t.Fatal] on its error, then
    [info.npack] writes of [info.lpack] bytes.  The answer is the list of
    reports. *)
Definition testClient_dump (c : netConn) (wlim npack lpack : int)
  : M C (list report) :=
  ' (rlc, err) <- New c 0 wlim ;;
  match err with
  | Some msg => ret [ReportError msg]
  | None =>
      match rlc with
      | Some rlc => testClient_loop rlc lpack (Z.to_nat npack) []
      | None => raise NilDereference
      end
  end.

End TestClient.

(** The clock readings of [k] consecutive throttled operations, from
    reading [t] on, never run backwards over a transfer, and no transfer
    takes longer than [allowed]. *)
Definition transfers_in_time (ck : nat -> time.Time) (t k : nat)
           (allowed : Z) : Prop :=
  forall i : nat,
    (i < k)%nat ->
    ck (t + 2 * i)%nat <= ck (S (t + 2 * i)) /\
    ck (S (t + 2 * i)) - ck (t + 2 * i)%nat <= allowed.

(** A world with one sink behind every handle, whose clock advances by
    1 ms from one reading to the next. *)
Definition ticking_world : World Z :=
  mkWorld (fun k => T0 + 1000000 * Z.of_nat k) 0 (fun _ => 0) [].

(** * Properties *)

(** ** Arithmetic of the throttling computation *)

Lemma wrap64_small (z : Z) : in_int64 z -> wrap64 z = z.
Proof.
  unfold in_int64, min_int64, max_int64, wrap64. intros Hz.
  rewrite Z.mod_small; lia.
Qed.

Lemma wrap64_range (z : Z) : in_int64 (wrap64 z).
Proof.
  unfold in_int64, min_int64, max_int64, wrap64.
  pose proof (Z.mod_pos_bound (z + 2 ^ 63) (2 ^ 64) ltac:(lia)). lia.
Qed.

Lemma quot_second_bounds (L : Z) :
  0 < L -> 0 <= Z.quot time.Second L <= time.Second.
Proof.
  intros HL. unfold time.Second.
  rewrite Z.quot_div_nonneg by lia. split.
  - apply Z.div_pos; lia.
  - apply Z.div_le_upper_bound; nia.
Qed.

Lemma div64_second (L : Z) :
  0 < L -> div64 (time.Nanoseconds time.Second) L = Some (Z.quot time.Second L).
Proof.
  intros HL. unfold div64, time.Nanoseconds.
  destruct (Z.eqb_spec L 0) as [E | _]; [lia |].
  f_equal. apply wrap64_small.
  pose proof (quot_second_bounds HL) as Hb.
  unfold in_int64, min_int64, max_int64, time.Second in *. lia.
Qed.

Lemma Sub_range (t u : time.Time) : in_int64 (time.Sub t u).
Proof.
  unfold time.Sub, in_int64.
  destruct (Z.gtb_spec (t - u) max_int64); [unfold min_int64, max_int64; lia |].
  destruct (Z.ltb_spec (t - u) min_int64); [unfold min_int64, max_int64; lia |].
  lia.
Qed.

Lemma Sub_exact (t u : time.Time) :
  in_int64 (t - u) -> time.Sub t u = t - u.
Proof.
  unfold time.Sub, in_int64. intros H.
  destruct (Z.gtb_spec (t - u) max_int64); [lia |].
  destruct (Z.ltb_spec (t - u) min_int64); [lia | reflexivity].
Qed.

(** ** The monad *)

Section Run.

Context {C : Type} {NC : NetConn C}.

(** ** One throttled read, step by step *)

Lemma Read_body_throttled (h : handle) (rl wl : int) (rt wt : time.Time)
      (b : list byte) (w : World C) :
  0 < rl ->
  let '(c', b', n, err) := conn_Read (conns w h) b in
  let t := completion rt w in
  let d := time.Sub t (baseline rt w) in
  let allowed := mul64 (Z.quot time.Second rl) n in
  Read_body (mkRLC (connRef h) rl wl rt wt) b w =
  Ok (mkRLC (connRef h) rl wl t wt, (b', n, err))
     (mkWorld (clock w) (S (ticks_before_transfer rt w))
              (conns_after h c' w)
              (sleep_events n d allowed ++
               EvNow t :: EvRead h b n err :: init_events rt w ++ trace w)).
Proof.
  intros Hrl.
  destruct (conn_Read (conns w h) b) as [[[c' b'] n] err] eqn:Hrd.
  cbv zeta. unfold Read_body. cbn [rlim rtime Conn].
  destruct (Z.leb_spec rl 0) as [Hle | _]; [lia |].
  unfold completion, baseline, ticks_before_transfer, init_events, sleep_events.
  destruct (time.IsZero rt) eqn:Hz;
    unfold bind, ret, time_Now, Conn_Read, set_rtime, store, log;
    cbn [clock ticks conns trace rlim rtime Conn wlim wtime];
    rewrite Hrd; cbn [clock ticks conns trace rlim rtime Conn wlim wtime];
    unfold checked_div, int64_of_int; rewrite (div64_second Hrl);
    unfold ret, time.Nanoseconds;
    cbn [clock ticks conns trace rlim rtime Conn wlim wtime];
    match goal with
    | |- context [(?x >? 0) && (?y <? ?z)] =>
        destruct ((x >? 0) && (y <? z))
    end; reflexivity.
Qed.

Lemma Write_body_throttled (h : handle) (rl wl : int) (rt wt : time.Time)
      (b : list byte) (w : World C) :
  0 < wl ->
  let '(c', n, err) := conn_Write (conns w h) b in
  let t := completion wt w in
  let d := time.Sub t (baseline wt w) in
  let allowed := mul64 (Z.quot time.Second wl) n in
  Write_body (mkRLC (connRef h) rl wl rt wt) b w =
  Ok (mkRLC (connRef h) rl wl rt t, (n, err))
     (mkWorld (clock w) (S (ticks_before_transfer wt w))
              (conns_after h c' w)
              (sleep_events n d allowed ++
               EvNow t :: EvWrite h b n err :: init_events wt w ++ trace w)).
Proof.
  intros Hwl.
  destruct (conn_Write (conns w h) b) as [[c' n] err] eqn:Hwr.
  cbv zeta. unfold Write_body. cbn [wlim wtime Conn].
  destruct (Z.leb_spec wl 0) as [Hle | _]; [lia |].
  unfold completion, baseline, ticks_before_transfer, init_events, sleep_events.
  destruct (time.IsZero wt) eqn:Hz;
    unfold bind, ret, time_Now, Conn_Write, set_wtime, store, log;
    cbn [clock ticks conns trace rlim rtime Conn wlim wtime];
    rewrite Hwr; cbn [clock ticks conns trace rlim rtime Conn wlim wtime];
    unfold checked_div, int64_of_int; rewrite (div64_second Hwl);
    unfold ret, time.Nanoseconds;
    cbn [clock ticks conns trace rlim rtime Conn wlim wtime];
    match goal with
    | |- context [(?x >? 0) && (?y <? ?z)] =>
        destruct ((x >? 0) && (y <? z))
    end; reflexivity.
Qed.

(** ** The fast path, step by step *)

Lemma Read_body_unlimited (h : handle) (rl wl : int) (rt wt : time.Time)
      (b : list byte) (w : World C) :
  rl <= 0 ->
  let '(c', b', n, err) := conn_Read (conns w h) b in
  Read_body (mkRLC (connRef h) rl wl rt wt) b w =
  Ok (mkRLC (connRef h) rl wl rt wt, (b', n, err))
     (mkWorld (clock w) (ticks w) (conns_after h c' w)
              (EvRead h b n err :: trace w)).
Proof.
  intros Hrl.
  destruct (conn_Read (conns w h) b) as [[[c' b'] n] err] eqn:Hrd.
  unfold Read_body. cbn [rlim Conn].
  destruct (Z.leb_spec rl 0) as [_ | Hgt]; [| lia].
  unfold bind, Conn_Read. rewrite Hrd. reflexivity.
Qed.

Lemma Write_body_unlimited (h : handle) (rl wl : int) (rt wt : time.Time)
      (b : list byte) (w : World C) :
  wl <= 0 ->
  let '(c', n, err) := conn_Write (conns w h) b in
  Write_body (mkRLC (connRef h) rl wl rt wt) b w =
  Ok (mkRLC (connRef h) rl wl rt wt, (n, err))
     (mkWorld (clock w) (ticks w) (conns_after h c' w)
              (EvWrite h b n err :: trace w)).
Proof.
  intros Hwl.
  destruct (conn_Write (conns w h) b) as [[c' n] err] eqn:Hwr.
  unfold Write_body. cbn [wlim Conn].
  destruct (Z.leb_spec wl 0) as [_ | Hgt]; [| lia].
  unfold bind, Conn_Write. rewrite Hwr. reflexivity.
Qed.

(** A method on a value receiver answers what its body answers. *)
Lemma value_receiver_omap {T R} (body : T -> M C (T * R)) (recv : T)
      (w : World C) :
  value_receiver body recv w = omap snd (body recv w).
Proof.
  unfold value_receiver, bind, omap.
  destruct (body recv w) as [[recv' r] w' | p w']; reflexivity.
Qed.

Lemma Read_Ok (rlc rlc' : RateLimitedConn) (b : list byte)
      (r : list byte * int * error) (w w' : World C)
      (H : Read_body rlc b w = Ok (rlc', r) w') :
  Read rlc b w = Ok r w'.
Proof. unfold Read, value_receiver, bind. rewrite H. reflexivity. Qed.

Lemma Write_Ok (rlc rlc' : RateLimitedConn) (b : list byte)
      (r : int * error) (w w' : World C)
      (H : Write_body rlc b w = Ok (rlc', r) w') :
  Write rlc b w = Ok r w'.
Proof. unfold Write, value_receiver, bind. rewrite H. reflexivity. Qed.

End Run.

(** ** Panics *)

Section Panics.

Context {C : Type} {NC : NetConn C}.

Lemma Read_body_panics (rlc : RateLimitedConn) (b : list byte)
      (w w' : World C) (p : panic) :
  Read_body rlc b w = Panicked _ p w' ->
  p = NilDereference /\ Conn rlc = nilConn.
Proof.
  destruct rlc as [[| h] rl wl rt wt]; intros H.
  - split; [| reflexivity]. revert H. unfold Read_body. cbn [rlim rtime Conn].
    destruct (rl <=? 0); [| destruct (time.IsZero rt)];
      unfold bind, ret, raise, time_Now, Conn_Read, set_rtime;
      cbn [Conn]; intros H; inversion H; reflexivity.
  - exfalso. destruct (Z.le_gt_cases rl 0) as [Hle | Hgt].
    + pose proof (Read_body_unlimited h wl rt wt b w Hle) as E.
      destruct (conn_Read (conns w h) b) as [[[c' b'] n] err]. congruence.
    + pose proof (Read_body_throttled h wl rt wt b w Hgt) as E.
      destruct (conn_Read (conns w h) b) as [[[c' b'] n] err].
      cbv zeta in E. congruence.
Qed.

Lemma Write_body_panics (rlc : RateLimitedConn) (b : list byte)
      (w w' : World C) (p : panic) :
  Write_body rlc b w = Panicked _ p w' ->
  p = NilDereference /\ Conn rlc = nilConn.
Proof.
  destruct rlc as [[| h] rl wl rt wt]; intros H.
  - split; [| reflexivity]. revert H. unfold Write_body. cbn [wlim wtime Conn].
    destruct (wl <=? 0); [| destruct (time.IsZero wt)];
      unfold bind, ret, raise, time_Now, Conn_Write, set_wtime;
      cbn [Conn]; intros H; inversion H; reflexivity.
  - exfalso. destruct (Z.le_gt_cases wl 0) as [Hle | Hgt].
    + pose proof (Write_body_unlimited h rl rt wt b w Hle) as E.
      destruct (conn_Write (conns w h) b) as [[c' n] err]. congruence.
    + pose proof (Write_body_throttled h rl rt wt b w Hgt) as E.
      destruct (conn_Write (conns w h) b) as [[c' n] err].
      cbv zeta in E. congruence.
Qed.

(** C10. The quotient of one second by the limit is taken only where the
    limit is positive: whatever the wrapper, the buffer and the world,
    neither [Read] nor [Write] (nor their bodies) panics on a division by
    zero. *)
Theorem throttling_never_divides_by_zero
        (rlc : RateLimitedConn) (b : list byte) (w w' : World C) :
  Read_body rlc b w <> Panicked _ DivideByZero w' /\
  Write_body rlc b w <> Panicked _ DivideByZero w' /\
  Read rlc b w <> Panicked _ DivideByZero w' /\
  Write rlc b w <> Panicked _ DivideByZero w'.
Proof.
  assert (HR : Read_body rlc b w <> Panicked _ DivideByZero w').
  { intros H. apply Read_body_panics in H. destruct H; discriminate. }
  assert (HW : Write_body rlc b w <> Panicked _ DivideByZero w').
  { intros H. apply Write_body_panics in H. destruct H; discriminate. }
  repeat split; try assumption.
  - unfold Read. rewrite value_receiver_omap.
    destruct (Read_body rlc b w) as [[r x] w1 | p w1] eqn:E; cbn;
      [discriminate |].
    intros H. inversion H; subst. apply HR. reflexivity.
  - unfold Write. rewrite value_receiver_omap.
    destruct (Write_body rlc b w) as [[r x] w1 | p w1] eqn:E; cbn;
      [discriminate |].
    intros H. inversion H; subst. apply HW. reflexivity.
Qed.

End Panics.

(** ** The constructor *)

Section Constructor.

Context {C : Type} {NC : NetConn C}.

(** C4. [New] succeeds (answers a nil error) exactly when both limits are
    non-negative.  With a negative limit it answers the error and a nil
    wrapper; on success the wrapper holds the given connection and limits
    and both timestamps are the zero time. *)
Theorem New_validates_limits
        (conn : netConn) (readLimit writeLimit : int) (w : World C) :
  exists (rlc : option RateLimitedConn) (err : error),
    New conn readLimit writeLimit w = Ok (rlc, err) w /\
    (err = None <-> 0 <= readLimit /\ 0 <= writeLimit) /\
    (readLimit < 0 \/ writeLimit < 0 ->
       rlc = None /\
       err = errors_New "read/write limits cannot be negative") /\
    (0 <= readLimit /\ 0 <= writeLimit ->
       exists r : RateLimitedConn,
         rlc = Some r /\ Conn r = conn /\
         rlim r = readLimit /\ wlim r = writeLimit /\
         time.IsZero (rtime r) = true /\ time.IsZero (wtime r) = true).
Proof.
  unfold New.
  destruct (Z.ltb_spec readLimit 0) as [Hr | Hr];
    [| destruct (Z.ltb_spec writeLimit 0) as [Hw | Hw]]; cbn [orb].
  - eexists _, _. split; [reflexivity |]. unfold errors_New.
    repeat split; try discriminate; try lia.
  - eexists _, _. split; [reflexivity |]. unfold errors_New.
    repeat split; try discriminate; try lia.
  - eexists _, _. split; [reflexivity |].
    split; [split; [lia | reflexivity] |].
    split; [lia |].
    intros _. eexists. repeat split.
Qed.

(** C9. Whatever the connection, nil included, [New] performs no effect:
    it returns in the world it was called in (no call on a connection, no
    connection object changed, no clock reading), and its verdict is the
    one it gives for a nil connection. *)
Theorem New_touches_no_stream
        (conn : netConn) (readLimit writeLimit : int) (w : World C) :
  (exists r, New conn readLimit writeLimit w = Ok r w) /\
  (exists r0, New nilConn readLimit writeLimit w = Ok r0 w) /\
  omap snd (New conn readLimit writeLimit w) =
  omap snd (New nilConn readLimit writeLimit w).
Proof.
  unfold New.
  destruct ((readLimit <? 0) || (writeLimit <? 0));
    (split; [eexists; reflexivity |];
     split; [eexists; reflexivity | reflexivity]).
Qed.

End Constructor.

(** ** Traces of one operation *)

Lemma transfers_app (tr1 tr2 : list event) :
  transfers (tr1 ++ tr2) = transfers tr1 ++ transfers tr2.
Proof.
  induction tr1 as [| e tr1 IH]; [reflexivity |].
  destruct e; cbn [app transfers]; rewrite IH; reflexivity.
Qed.

Lemma sleeps_app (tr1 tr2 : list event) :
  sleeps (tr1 ++ tr2) = sleeps tr1 ++ sleeps tr2.
Proof.
  induction tr1 as [| e tr1 IH]; [reflexivity |].
  destruct e; cbn [app sleeps]; rewrite IH; reflexivity.
Qed.

Lemma transfers_sleep_events (n : int) (d allowed : int64) :
  transfers (sleep_events n d allowed) = [].
Proof.
  unfold sleep_events. destruct ((n >? 0) && (d <? allowed)); reflexivity.
Qed.

Lemma transfers_init_events {C} (rt : time.Time) (w : World C) :
  transfers (init_events rt w) = [].
Proof. unfold init_events. destruct (time.IsZero rt); reflexivity. Qed.

Lemma sleeps_init_events {C} (rt : time.Time) (w : World C) :
  sleeps (init_events rt w) = [].
Proof. unfold init_events. destruct (time.IsZero rt); reflexivity. Qed.

Lemma sleeps_sleep_events (n : int) (d allowed : int64) :
  sleeps (sleep_events n d allowed) =
  if (n >? 0) && (d <? allowed) then [sub64 allowed d] else [].
Proof.
  unfold sleep_events. destruct ((n >? 0) && (d <? allowed)); reflexivity.
Qed.

(** ** Pass-through and the fast path *)

Section Transfers.

Context {C : Type} {NC : NetConn C}.

(** C7. With a read limit of 0 [Read] is the call on the underlying
    connection and nothing else: its answer is the connection's, the only
    new event is that call (no clock reading, no sleep), the [rlc] of the
    method ends as it started, and the stored read timestamp has no
    influence on the outcome.  The same for [Write] with a write limit of
    0. *)
Theorem unlimited_direction_only_delegates
        (h : handle) (rl wl : int) (rt wt : time.Time) (b : list byte)
        (w : World C) :
  (let '(c', b', n, err) := conn_Read (conns w h) b in
   let w' := mkWorld (clock w) (ticks w) (conns_after h c' w)
                     (EvRead h b n err :: trace w) in
   Read_body (mkRLC (connRef h) 0 wl rt wt) b w =
     Ok (mkRLC (connRef h) 0 wl rt wt, (b', n, err)) w' /\
   Read (mkRLC (connRef h) 0 wl rt wt) b w = Ok (b', n, err) w' /\
   forall rt' : time.Time,
     Read (mkRLC (connRef h) 0 wl rt' wt) b w =
     Read (mkRLC (connRef h) 0 wl rt wt) b w) /\
  (let '(c', n, err) := conn_Write (conns w h) b in
   let w' := mkWorld (clock w) (ticks w) (conns_after h c' w)
                     (EvWrite h b n err :: trace w) in
   Write_body (mkRLC (connRef h) rl 0 rt wt) b w =
     Ok (mkRLC (connRef h) rl 0 rt wt, (n, err)) w' /\
   Write (mkRLC (connRef h) rl 0 rt wt) b w = Ok (n, err) w' /\
   forall wt' : time.Time,
     Write (mkRLC (connRef h) rl 0 rt wt') b w =
     Write (mkRLC (connRef h) rl 0 rt wt) b w).
Proof.
  split.
  - assert (E : forall rt0,
               let '(c', b', n, err) := conn_Read (conns w h) b in
               Read_body (mkRLC (connRef h) 0 wl rt0 wt) b w =
               Ok (mkRLC (connRef h) 0 wl rt0 wt, (b', n, err))
                  (mkWorld (clock w) (ticks w) (conns_after h c' w)
                           (EvRead h b n err :: trace w))).
    { intros rt0. apply Read_body_unlimited. lia. }
    destruct (conn_Read (conns w h) b) as [[[c' b'] n] err].
    cbv zeta. split; [apply E |].
    split; [apply (Read_Ok _ _ _ (E rt)) |].
    intros rt'. rewrite (Read_Ok _ _ _ (E rt)), (Read_Ok _ _ _ (E rt')).
    reflexivity.
  - assert (E : forall wt0,
               let '(c', n, err) := conn_Write (conns w h) b in
               Write_body (mkRLC (connRef h) rl 0 rt wt0) b w =
               Ok (mkRLC (connRef h) rl 0 rt wt0, (n, err))
                  (mkWorld (clock w) (ticks w) (conns_after h c' w)
                           (EvWrite h b n err :: trace w))).
    { intros wt0. apply Write_body_unlimited. lia. }
    destruct (conn_Write (conns w h) b) as [[c' n] err].
    cbv zeta. split; [apply E |].
    split; [apply (Write_Ok _ _ _ (E wt)) |].
    intros wt'. rewrite (Write_Ok _ _ _ (E wt)), (Write_Ok _ _ _ (E wt')).
    reflexivity.
Qed.

(** C6. Whatever the limits and the timestamps, [Read] answers the buffer
    contents, the count and the error of one call on the underlying
    connection with the caller's buffer, and that call is the only one it
    makes on a connection; the same for [Write]. *)
Theorem transfer_results_pass_through
        (h : handle) (rl wl : int) (rt wt : time.Time) (b : list byte)
        (w : World C) :
  (let '(c', b', n, err) := conn_Read (conns w h) b in
   exists w' : World C,
     Read (mkRLC (connRef h) rl wl rt wt) b w = Ok (b', n, err) w' /\
     transfers (trace w') = EvRead h b n err :: transfers (trace w) /\
     conns w' = conns_after h c' w) /\
  (let '(c', n, err) := conn_Write (conns w h) b in
   exists w' : World C,
     Write (mkRLC (connRef h) rl wl rt wt) b w = Ok (n, err) w' /\
     transfers (trace w') = EvWrite h b n err :: transfers (trace w) /\
     conns w' = conns_after h c' w).
Proof.
  split.
  - destruct (Z.le_gt_cases rl 0) as [Hle | Hgt].
    + pose proof (Read_body_unlimited h wl rt wt b w Hle) as E.
      destruct (conn_Read (conns w h) b) as [[[c' b'] n] err].
      eexists. split; [apply (Read_Ok _ _ _ E) |].
      split; reflexivity.
    + pose proof (Read_body_throttled h wl rt wt b w Hgt) as E.
      destruct (conn_Read (conns w h) b) as [[[c' b'] n] err].
      cbv zeta in E.
      eexists. split; [apply (Read_Ok _ _ _ E) |].
      split; [| reflexivity]. cbn [trace].
      rewrite transfers_app, transfers_sleep_events. cbn [app transfers].
      rewrite transfers_app, transfers_init_events. reflexivity.
  - destruct (Z.le_gt_cases wl 0) as [Hle | Hgt].
    + pose proof (Write_body_unlimited h rl rt wt b w Hle) as E.
      destruct (conn_Write (conns w h) b) as [[c' n] err].
      eexists. split; [apply (Write_Ok _ _ _ E) |].
      split; reflexivity.
    + pose proof (Write_body_throttled h rl rt wt b w Hgt) as E.
      destruct (conn_Write (conns w h) b) as [[c' n] err].
      cbv zeta in E.
      eexists. split; [apply (Write_Ok _ _ _ E) |].
      split; [| reflexivity]. cbn [trace].
      rewrite transfers_app, transfers_sleep_events. cbn [app transfers].
      rewrite transfers_app, transfers_init_events. reflexivity.
Qed.

End Transfers.

(** ** Independence of the two directions *)

Section Directions.

Context {C : Type} {NC : NetConn C}.

Lemma Read_body_write_side (rlc : RateLimitedConn) (b : list byte)
      (w : World C) (wl' : int) (wt' : time.Time) :
  Read_body (set_wtime wt' (set_wlim wl' rlc)) b w =
  omap (fun x => (set_wtime wt' (set_wlim wl' (fst x)), snd x))
       (Read_body rlc b w).
Proof.
  destruct rlc as [conn rl wl rt wt]. destruct w as [ck tk cs tr].
  unfold Read_body.
  cbn [Conn rlim wlim rtime wtime set_rlim set_wlim set_rtime set_wtime].
  destruct (rl <=? 0).
  - destruct conn as [| h]; run_body; [reflexivity |].
    destruct (conn_Read (cs h) b) as [[[c' b'] n] err]. reflexivity.
  - destruct (time.IsZero rt); destruct conn as [| h]; run_body;
      try reflexivity;
      destruct (conn_Read (cs h) b) as [[[c' b'] n] err];
      run_body;
      (destruct (div64 (time.Nanoseconds time.Second) (int64_of_int rl));
       [| reflexivity]);
      match goal with
      | |- context [(?x >? 0) && (?y <? ?z)] =>
          destruct ((x >? 0) && (y <? z))
      end; reflexivity.
Qed.

Lemma Write_body_read_side (rlc : RateLimitedConn) (b : list byte)
      (w : World C) (rl' : int) (rt' : time.Time) :
  Write_body (set_rtime rt' (set_rlim rl' rlc)) b w =
  omap (fun x => (set_rtime rt' (set_rlim rl' (fst x)), snd x))
       (Write_body rlc b w).
Proof.
  destruct rlc as [conn rl wl rt wt]. destruct w as [ck tk cs tr].
  unfold Write_body.
  cbn [Conn rlim wlim rtime wtime set_rlim set_wlim set_rtime set_wtime].
  destruct (wl <=? 0).
  - destruct conn as [| h]; run_body; [reflexivity |].
    destruct (conn_Write (cs h) b) as [[c' n] err]. reflexivity.
  - destruct (time.IsZero wt); destruct conn as [| h]; run_body;
      try reflexivity;
      destruct (conn_Write (cs h) b) as [[c' n] err];
      run_body;
      (destruct (div64 (time.Nanoseconds time.Second) (int64_of_int wl));
       [| reflexivity]);
      match goal with
      | |- context [(?x >? 0) && (?y <? ?z)] =>
          destruct ((x >? 0) && (y <? z))
      end; reflexivity.
Qed.

(** C8. The read side neither reads nor writes the write side, and
    conversely.  Replacing the write limit and the write timestamp of the
    wrapper by any other values changes nothing in what the bodies of
    [Read] and [SetReadLimit] do, and their [rlc] ends with those same
    write-side values; the bodies of [Write] and [SetWriteLimit] treat the
    read limit and the read timestamp in the same way. *)
Theorem directions_are_independent
        (rlc : RateLimitedConn) (b : list byte) (lim : int) (w : World C)
        (rl' wl' : int) (rt' wt' : time.Time) :
  Read_body (set_wtime wt' (set_wlim wl' rlc)) b w =
    omap (fun x => (set_wtime wt' (set_wlim wl' (fst x)), snd x))
         (Read_body rlc b w) /\
  SetReadLimit_body (set_wtime wt' (set_wlim wl' rlc)) lim w =
    omap (fun x => (set_wtime wt' (set_wlim wl' (fst x)), snd x))
         (SetReadLimit_body rlc lim w) /\
  Write_body (set_rtime rt' (set_rlim rl' rlc)) b w =
    omap (fun x => (set_rtime rt' (set_rlim rl' (fst x)), snd x))
         (Write_body rlc b w) /\
  SetWriteLimit_body (set_rtime rt' (set_rlim rl' rlc)) lim w =
    omap (fun x => (set_rtime rt' (set_rlim rl' (fst x)), snd x))
         (SetWriteLimit_body rlc lim w).
Proof.
  split; [apply Read_body_write_side |].
  split; [| split; [apply Write_body_read_side |]].
  - unfold SetReadLimit_body. destruct (lim <? 0); reflexivity.
  - unfold SetWriteLimit_body. destruct (lim <? 0); reflexivity.
Qed.

End Directions.

(** ** The throttling computation *)

Lemma cons_neq_self {A : Type} (x : A) (l : list A) : x :: l <> l.
Proof.
  intros H. apply (f_equal (@List.length A)) in H. cbn [List.length] in H.
  revert H. apply Nat.neq_succ_diag_l.
Qed.

Lemma throttle_condition (n : int) (d allowed : int64) :
  (n >? 0) && (d <? allowed) = true <-> 0 < n /\ d < allowed.
Proof.
  rewrite andb_true_iff, Z.gtb_ltb, !Z.ltb_lt. reflexivity.
Qed.

Lemma sleeps_of_operation (n : int) (d allowed : int64)
      (mid old : list event) :
  sleeps mid = [] ->
  let new := sleeps (sleep_events n d allowed ++ mid ++ old) in
  (0 < n /\ d < allowed <-> new = sub64 allowed d :: sleeps old) /\
  (~ (0 < n /\ d < allowed) <-> new = sleeps old).
Proof.
  intros Hmid. cbv zeta.
  rewrite sleeps_app, sleeps_app, Hmid, sleeps_sleep_events. cbn [app].
  rewrite <- throttle_condition.
  destruct ((n >? 0) && (d <? allowed)); cbn [app]; split; split;
    try reflexivity; try discriminate; try congruence; intros H.
  - exfalso. exact (cons_neq_self H).
  - exfalso. symmetry in H. exact (cons_neq_self H).
Qed.

Lemma mul64_exact (a b : Z) : in_int64 (a * b) -> mul64 a b = a * b.
Proof. apply wrap64_small. Qed.

Lemma sub64_exact (a b : Z) : in_int64 b -> in_int64 a -> 0 <= b -> b < a ->
  sub64 a b = a - b.
Proof.
  unfold sub64, in_int64, min_int64, max_int64. intros Hb Ha H0 Hlt.
  apply wrap64_small. unfold in_int64, min_int64, max_int64. lia.
Qed.

Section Throttle.

Context {C : Type} {NC : NetConn C}.

(** C5. A [Read] under a positive limit [L] divides one second by [L]
    (the quotient truncates toward zero and the division does not panic),
    multiplies the quotient by the count [n] of the transfer, and measures
    [d] from the baseline to the reading taken after the transfer.  It
    sleeps once, for [allowed - d], when [n > 0] and [d < allowed], and
    does not sleep otherwise.  The product and the difference are those
    of [int64]: they are the exact ones whenever the product fits 64 bits
    and [d] is not negative.  The same for [Write] under a positive write
    limit. *)
Theorem throttle_sleep_computation
        (h : handle) (L other : int) (rt wt : time.Time) (b : list byte)
        (w : World C) :
  0 < L ->
  let timePerByte := Z.quot time.Second L in
  div64 (time.Nanoseconds time.Second) (int64_of_int L) = Some timePerByte /\
  (let '(c', b', n, err) := conn_Read (conns w h) b in
   let d := time.Nanoseconds (time.Sub (completion rt w) (baseline rt w)) in
   let allowed := mul64 timePerByte (int64_of_int n) in
   exists (rlc' : RateLimitedConn) (w' : World C),
     Read_body (mkRLC (connRef h) L other rt wt) b w =
       Ok (rlc', (b', n, err)) w' /\
     (0 < n /\ d < allowed <->
      sleeps (trace w') = sub64 allowed d :: sleeps (trace w)) /\
     (~ (0 < n /\ d < allowed) <-> sleeps (trace w') = sleeps (trace w)) /\
     (in_int64 (timePerByte * n) -> allowed = timePerByte * n) /\
     (0 <= d -> d < allowed -> sub64 allowed d = allowed - d)) /\
  (let '(c', n, err) := conn_Write (conns w h) b in
   let d := time.Nanoseconds (time.Sub (completion wt w) (baseline wt w)) in
   let allowed := mul64 timePerByte (int64_of_int n) in
   exists (rlc' : RateLimitedConn) (w' : World C),
     Write_body (mkRLC (connRef h) other L rt wt) b w =
       Ok (rlc', (n, err)) w' /\
     (0 < n /\ d < allowed <->
      sleeps (trace w') = sub64 allowed d :: sleeps (trace w)) /\
     (~ (0 < n /\ d < allowed) <-> sleeps (trace w') = sleeps (trace w)) /\
     (in_int64 (timePerByte * n) -> allowed = timePerByte * n) /\
     (0 <= d -> d < allowed -> sub64 allowed d = allowed - d)).
Proof.
  intros HL. cbv zeta. split; [apply div64_second; exact HL |].
  unfold time.Nanoseconds, int64_of_int. split.
  - pose proof (Read_body_throttled h other rt wt b w HL) as E.
    destruct (conn_Read (conns w h) b) as [[[c' b'] n] err].
    cbv zeta in E. eexists _, _. split; [exact E |]. cbn [trace].
    pose proof (@sleeps_of_operation n
                  (time.Sub (completion rt w) (baseline rt w))
                  (mul64 (Z.quot time.Second L) n)
                  (EvNow (completion rt w) :: EvRead h b n err
                     :: init_events rt w) (trace w)) as S.
    specialize (S (sleeps_init_events rt w)). cbv zeta in S.
    cbn [app] in S.
    destruct S as [S1 S2]. split; [exact S1 |]. split; [exact S2 |].
    split; [apply mul64_exact |].
    intros H0 Hlt. apply sub64_exact; auto using Sub_range.
    apply wrap64_range.
  - pose proof (Write_body_throttled h other rt wt b w HL) as E.
    destruct (conn_Write (conns w h) b) as [[c' n] err].
    cbv zeta in E. eexists _, _. split; [exact E |]. cbn [trace].
    pose proof (@sleeps_of_operation n
                  (time.Sub (completion wt w) (baseline wt w))
                  (mul64 (Z.quot time.Second L) n)
                  (EvNow (completion wt w) :: EvWrite h b n err
                     :: init_events wt w) (trace w)) as S.
    specialize (S (sleeps_init_events wt w)). cbv zeta in S.
    cbn [app] in S.
    destruct S as [S1 S2]. split; [exact S1 |]. split; [exact S2 |].
    split; [apply mul64_exact |].
    intros H0 Hlt. apply sub64_exact; auto using Sub_range.
    apply wrap64_range.
Qed.

End Throttle.

Lemma throttle_sleep_computation_witness :
  0 < 4096 /\
  div64 (time.Nanoseconds time.Second) (int64_of_int 4096) = Some 244140 /\
  exists (rlc' : RateLimitedConn) (w' : World script),
    Read_body read4096 (buffer 1024) two_packets =
      Ok (rlc', (buffer 1024, 1024, None)) w' /\
    sleeps (trace w') = [244140 * 1024 - (T1 - T0)].
Proof.
  assert (H : 0 < 4096) by reflexivity.
  split; [exact H |].
  destruct (throttle_sleep_computation 0%nat 0 0 0 (buffer 1024) two_packets H)
    as [Hdiv [HR _]].
  split; [exact Hdiv |].
  cbv beta iota zeta delta
      [conn_Read ScriptedConn script_Read conns two_packets scripted_world]
    in HR.
  destruct HR as [rlc' [w' [E [S1 _]]]].
  exists rlc', w'. split; [exact E |].
  exact (proj1 S1 (conj eq_refl eq_refl)).
Defined.

(** ** Baseline and timestamp of a throttled operation *)

Section Baseline.

Context {C : Type} {NC : NetConn C}.

(** C1, as the code has it.  Under a positive read limit the body of
    [Read] answers with its [rtime] set to the clock reading taken when
    the underlying read has returned, a reading that precedes the sleep in
    the trace.  The elapsed time is measured to that reading from the
    baseline: the stored timestamp when there is one; when there is none,
    the reading the lazy initialization takes just before the underlying
    read, so that an operation without a stored timestamp is measured over
    its own transfer and sleeps whenever that transfer was faster than
    allowed.  The same for [Write] with [wtime]. *)
Theorem timestamp_is_transfer_completion
        (h : handle) (L other : int) (rt wt : time.Time) (b : list byte)
        (w : World C) :
  0 < L ->
  (let '(c', b', n, err) := conn_Read (conns w h) b in
   let t := completion rt w in
   let base := baseline rt w in
   let d := time.Nanoseconds (time.Sub t base) in
   let allowed := mul64 (Z.quot time.Second L) (int64_of_int n) in
   exists (rlc' : RateLimitedConn) (w' : World C),
     Read_body (mkRLC (connRef h) L other rt wt) b w =
       Ok (rlc', (b', n, err)) w' /\
     rtime rlc' = t /\
     trace w' =
       sleep_events n d allowed ++
       EvNow t :: EvRead h b n err :: init_events rt w ++ trace w /\
     (time.IsZero rt = true ->
      init_events rt w = [EvNow base] /\
      base = clock w (ticks w) /\ t = clock w (S (ticks w))) /\
     (time.IsZero rt = false ->
      init_events rt w = [] /\ base = rt /\ t = clock w (ticks w))) /\
  (let '(c', n, err) := conn_Write (conns w h) b in
   let t := completion wt w in
   let base := baseline wt w in
   let d := time.Nanoseconds (time.Sub t base) in
   let allowed := mul64 (Z.quot time.Second L) (int64_of_int n) in
   exists (rlc' : RateLimitedConn) (w' : World C),
     Write_body (mkRLC (connRef h) other L rt wt) b w =
       Ok (rlc', (n, err)) w' /\
     wtime rlc' = t /\
     trace w' =
       sleep_events n d allowed ++
       EvNow t :: EvWrite h b n err :: init_events wt w ++ trace w /\
     (time.IsZero wt = true ->
      init_events wt w = [EvNow base] /\
      base = clock w (ticks w) /\ t = clock w (S (ticks w))) /\
     (time.IsZero wt = false ->
      init_events wt w = [] /\ base = wt /\ t = clock w (ticks w))).
Proof.
  intros HL. unfold time.Nanoseconds, int64_of_int. split.
  - pose proof (Read_body_throttled h other rt wt b w HL) as E.
    destruct (conn_Read (conns w h) b) as [[[c' b'] n] err].
    cbv zeta in E |- *. eexists _, _. split; [exact E |].
    split; [reflexivity |]. split; [reflexivity |].
    unfold init_events, baseline, completion, ticks_before_transfer.
    split; intros ->; repeat split.
  - pose proof (Write_body_throttled h other rt wt b w HL) as E.
    destruct (conn_Write (conns w h) b) as [[c' n] err].
    cbv zeta in E |- *. eexists _, _. split; [exact E |].
    split; [reflexivity |]. split; [reflexivity |].
    unfold init_events, baseline, completion, ticks_before_transfer.
    split; intros ->; repeat split.
Qed.

End Baseline.

Lemma timestamp_is_transfer_completion_witness :
  0 < 4096 /\
  exists (rlc' : RateLimitedConn) (w' : World script),
    Write_body write4096 (buffer 1024) two_packets =
      Ok (rlc', (1024, None)) w' /\
    wtime rlc' = T1 /\
    trace w' =
      [EvSleep (244140 * 1024 - (T1 - T0)); EvNow T1;
       EvWrite 0%nat (buffer 1024) 1024 None; EvNow T0].
Proof.
  assert (H : 0 < 4096) by reflexivity.
  split; [exact H |].
  destruct (timestamp_is_transfer_completion
              0%nat 0 0 0 (buffer 1024) two_packets H) as [_ HW].
  cbv beta iota zeta delta
      [conn_Write ScriptedConn script_Write conns two_packets scripted_world]
    in HW.
  destruct HW as [rlc' [w' [E [Ht [Htr _]]]]].
  exists rlc', w'. split; [exact E |]. split; [exact Ht | exact Htr].
Defined.

(** C1, the claim as worded, at a concrete input.  The first [Read]
    through a wrapper that [New] has just built with a read limit of 4096
    bytes per second: the underlying read answers 1024 bytes within 1 ms,
    and [Read] then sleeps for the rest of the 249999360 ns allowed for
    them.  Two reads in sequence each take their own baseline, and the
    wrapper of the caller still has no timestamp after them. *)
Lemma first_read_is_delayed :
  New (connRef 0%nat) 4096 0 two_packets =
    Ok (Some read4096, None) two_packets /\
  answer_and_trace (Read read4096 (buffer 1024) two_packets) =
    Some ((buffer 1024, 1024, None),
          [EvSleep 248999360; EvNow T1;
           EvRead 0%nat (buffer 1024) 1024 None; EvNow T0]) /\
  answer_and_trace
    (run [CallRead (buffer 1024); CallRead (buffer 1024)] read4096
         two_packets) =
    Some ((read4096,
           [RetRead (buffer 1024) 1024 None; RetRead (buffer 1024) 1024 None]),
          [EvSleep 248999360; EvNow T3;
           EvRead 0%nat (buffer 1024) 1024 None; EvNow T2;
           EvSleep 248999360; EvNow T1;
           EvRead 0%nat (buffer 1024) 1024 None; EvNow T0]) /\
  time.IsZero (rtime read4096) = true /\
  sleeps (trace (world_of (Read read4096 (buffer 1024) two_packets))) <>
  sleeps (trace two_packets).
Proof.
  split; [vm_compute; reflexivity |].
  split; [vm_compute; reflexivity |].
  split; [vm_compute; reflexivity |].
  split; [reflexivity |].
  vm_compute. discriminate.
Qed.

(** ** Value receivers *)

Section Receivers.

Context {C : Type} {NC : NetConn C}.

Lemma invoke_body_of (rlc : RateLimitedConn) (c : call) (w : World C) :
  invoke rlc c w = omap snd (body_of c rlc w).
Proof.
  destruct c as [b | b | lim | lim];
    unfold invoke, body_of, Read, Write, SetReadLimit, SetWriteLimit,
           value_receiver, bind, omap.
  - destruct (Read_body rlc b w) as [[r [[b' n] err]] w' | p w']; reflexivity.
  - destruct (Write_body rlc b w) as [[r [n err]] w' | p w']; reflexivity.
  - destruct (SetReadLimit_body rlc lim w) as [[r err] w' | p w']; reflexivity.
  - destruct (SetWriteLimit_body rlc lim w) as [[r err] w' | p w']; reflexivity.
Qed.

Lemma run_results_on (cs : list call) (rlc : RateLimitedConn) (w : World C) :
  run cs rlc w = omap (fun rs => (rlc, rs)) (results_on rlc cs w).
Proof.
  revert w. induction cs as [| c cs IH]; intros w; [reflexivity |].
  cbn [run results_on]. unfold bind at 1 3.
  rewrite invoke_body_of.
  destruct (body_of c rlc w) as [[rlc1 r] w1 | p w1]; cbn [omap snd];
    [| reflexivity].
  unfold bind. rewrite IH.
  destruct (results_on rlc cs w1) as [rs w2 | p w2]; reflexivity.
Qed.

Lemma SetReadLimit_verdict (rlc : RateLimitedConn) (lim : int) (w : World C) :
  (lim < 0 ->
   SetReadLimit_body rlc lim w =
     Ok (rlc, errors_New "read limit cannot be negative") w /\
   SetReadLimit rlc lim w =
     Ok (errors_New "read limit cannot be negative") w) /\
  (0 <= lim ->
   SetReadLimit_body rlc lim w = Ok (set_rlim lim rlc, None) w /\
   SetReadLimit rlc lim w = Ok None w).
Proof.
  unfold SetReadLimit, value_receiver, bind, SetReadLimit_body.
  destruct (Z.ltb_spec lim 0); split; intros; try lia; split; reflexivity.
Qed.

Lemma SetWriteLimit_verdict (rlc : RateLimitedConn) (lim : int) (w : World C) :
  (lim < 0 ->
   SetWriteLimit_body rlc lim w =
     Ok (rlc, errors_New "write limit cannot be negative") w /\
   SetWriteLimit rlc lim w =
     Ok (errors_New "write limit cannot be negative") w) /\
  (0 <= lim ->
   SetWriteLimit_body rlc lim w = Ok (set_wlim lim rlc, None) w /\
   SetWriteLimit rlc lim w = Ok None w).
Proof.
  unfold SetWriteLimit, value_receiver, bind, SetWriteLimit_body.
  destruct (Z.ltb_spec lim 0); split; intros; try lia; split; reflexivity.
Qed.

Lemma SetReadLimit_world (rlc : RateLimitedConn) (lim : int) (w : World C) :
  exists err, SetReadLimit rlc lim w = Ok err w.
Proof.
  destruct (SetReadLimit_verdict rlc lim w) as [Hn Hp].
  destruct (Z.lt_ge_cases lim 0) as [H | H].
  - eexists. apply (Hn H).
  - eexists. apply (Hp H).
Qed.

Lemma SetWriteLimit_world (rlc : RateLimitedConn) (lim : int) (w : World C) :
  exists err, SetWriteLimit rlc lim w = Ok err w.
Proof.
  destruct (SetWriteLimit_verdict rlc lim w) as [Hn Hp].
  destruct (Z.lt_ge_cases lim 0) as [H | H].
  - eexists. apply (Hn H).
  - eexists. apply (Hp H).
Qed.

(** C3. The four methods have value receivers.  Through any sequence of
    calls the wrapper the caller holds stays the value it was: every call
    answers what its body computes from that one value, and the [rlc] the
    body ends with is dropped.  So a limit set by [SetReadLimit] or
    [SetWriteLimit] is not seen by the [Read] or [Write] that follows,
    although the body of the setter did assign it. *)
Theorem value_receivers_keep_the_wrapper
        (cs : list call) (rlc : RateLimitedConn) (w : World C) :
  run cs rlc w = omap (fun rs => (rlc, rs)) (results_on rlc cs w) /\
  (forall rlc' rs w', run cs rlc w = Ok (rlc', rs) w' -> rlc' = rlc) /\
  (forall c : call, invoke rlc c w = omap snd (body_of c rlc w)) /\
  (forall (lim : int) (b : list byte),
     (_ <- SetReadLimit rlc lim ;; Read rlc b) w = Read rlc b w /\
     (_ <- SetWriteLimit rlc lim ;; Write rlc b) w = Write rlc b w) /\
  (forall lim : int,
     0 <= lim ->
     SetReadLimit_body rlc lim w = Ok (set_rlim lim rlc, None) w /\
     SetWriteLimit_body rlc lim w = Ok (set_wlim lim rlc, None) w).
Proof.
  split; [apply run_results_on |].
  split.
  { intros rlc' rs w' H. rewrite run_results_on in H.
    destruct (results_on rlc cs w) as [rs0 w0 | p w0]; cbn [omap] in H;
      [| discriminate].
    inversion H. reflexivity. }
  split; [intros c; apply invoke_body_of |].
  split.
  - intros lim b. split; unfold bind.
    + destruct (SetReadLimit_world rlc lim w) as [err ->]. reflexivity.
    + destruct (SetWriteLimit_world rlc lim w) as [err ->]. reflexivity.
  - intros lim Hlim. split.
    + apply (SetReadLimit_verdict rlc lim w). exact Hlim.
    + apply (SetWriteLimit_verdict rlc lim w). exact Hlim.
Qed.

End Receivers.

(** C2, evaluated.  A wrapper built by [New] without limits; the caller
    sets a read limit of 4096 bytes per second, which succeeds, then reads
    1024 bytes: the read takes the fast path, with no clock reading and no
    sleep, and the wrapper of the caller still has the limit 0.  Had the
    assignment of [SetReadLimit] reached the wrapper, the read would have
    slept for the rest of the time allowed under 4096 bytes per second.
    The same for [SetWriteLimit] and [Write]. *)
Theorem set_limit_does_not_reach_the_next_operation :
  New (connRef 0%nat) 0 0 two_packets =
    Ok (Some unlimited0, None) two_packets /\
  answer_and_trace
    (run [CallSetReadLimit 4096; CallRead (buffer 1024)] unlimited0
         two_packets) =
    Some ((unlimited0, [RetSet None; RetRead (buffer 1024) 1024 None]),
          [EvRead 0%nat (buffer 1024) 1024 None]) /\
  answer_and_trace
    (run_shared [CallSetReadLimit 4096; CallRead (buffer 1024)] unlimited0
                two_packets) =
    Some ((mkRLC (connRef 0%nat) 4096 0 T1 0,
           [RetSet None; RetRead (buffer 1024) 1024 None]),
          [EvSleep 248999360; EvNow T1;
           EvRead 0%nat (buffer 1024) 1024 None; EvNow T0]) /\
  answer_and_trace
    (run [CallSetWriteLimit 4096; CallWrite (buffer 1024)] unlimited0
         two_packets) =
    Some ((unlimited0, [RetSet None; RetWrite 1024 None]),
          [EvWrite 0%nat (buffer 1024) 1024 None]) /\
  answer_and_trace
    (run_shared [CallSetWriteLimit 4096; CallWrite (buffer 1024)] unlimited0
                two_packets) =
    Some ((mkRLC (connRef 0%nat) 0 4096 0 T1,
           [RetSet None; RetWrite 1024 None]),
          [EvSleep 248999360; EvNow T1;
           EvWrite 0%nat (buffer 1024) 1024 None; EvNow T0]).
Proof. repeat split; vm_compute; reflexivity. Qed.

(** * Further properties of the package *)

(** ** The time an operation is made to last *)

Lemma wrap64_le (z : Z) : 0 <= z -> wrap64 z <= z.
Proof.
  intros Hz. unfold wrap64.
  pose proof (Z.mod_le (z + 2 ^ 63) (2 ^ 64) ltac:(lia) ltac:(lia)). lia.
Qed.

Lemma Sub_nonneg (t u : time.Time) : u <= t -> 0 <= time.Sub t u.
Proof.
  intros H. unfold time.Sub.
  destruct (Z.gtb_spec (t - u) max_int64); [unfold max_int64; lia |].
  destruct (Z.ltb_spec (t - u) min_int64); [unfold min_int64 in *; lia | lia].
Qed.

Lemma second_rounding (L n : Z) :
  0 < L -> 0 < n ->
  time.Second * n - L * n < L * (Z.quot time.Second L * n) <= time.Second * n.
Proof.
  intros HL Hn. unfold time.Second.
  rewrite Z.quot_div_nonneg by lia.
  pose proof (Z.mul_div_le 1000000000 L HL).
  pose proof (Z.mul_succ_div_gt 1000000000 L HL). nia.
Qed.

(** The duration asked of [time.Sleep] by the sleep step. *)
Lemma slept_sleep_events (n : int) (d allowed : int64) (tr : list event) :
  slept (sleep_events n d allowed ++ tr) =
  (if (n >? 0) && (d <? allowed) then sub64 allowed d else 0) + slept tr.
Proof.
  unfold slept. rewrite sleeps_app, sleeps_sleep_events.
  destruct ((n >? 0) && (d <? allowed)); reflexivity.
Qed.

Lemma sleep_step_exact (L n d : Z) :
  0 < L -> 0 <= d -> in_int64 d -> in_int64 (Z.quot time.Second L * n) ->
  let allowed := mul64 (Z.quot time.Second L) n in
  d + (if (n >? 0) && (d <? allowed) then sub64 allowed d else 0) =
  Z.max d (Z.quot time.Second L * n).
Proof.
  intros HL Hd Hdr Hr. cbv zeta. rewrite (mul64_exact _ _ Hr).
  pose proof (quot_second_bounds HL) as [Hq _].
  destruct (Z.gtb_spec n 0) as [Hn | Hn]; cbn [andb].
  - destruct (Z.ltb_spec d (Z.quot time.Second L * n)) as [Hlt | Hge].
    + rewrite sub64_exact by assumption. lia.
    + lia.
  - assert (Z.quot time.Second L * n <= 0) by nia. lia.
Qed.

Lemma sleep_step_bound (L n d : Z) :
  0 < L -> 0 <= d -> in_int64 d ->
  let allowed := mul64 (Z.quot time.Second L) n in
  0 <= (if (n >? 0) && (d <? allowed) then sub64 allowed d else 0)
    <= Z.quot time.Second L * Z.max 0 n.
Proof.
  intros HL Hd Hdr. cbv zeta.
  pose proof (quot_second_bounds HL) as [Hq _].
  destruct (Z.gtb_spec n 0) as [Hn | Hn]; cbn [andb]; [| nia].
  destruct (Z.ltb_spec d (mul64 (Z.quot time.Second L) n)) as [Hlt | Hge];
    [| nia].
  assert (Ha : mul64 (Z.quot time.Second L) n <= Z.quot time.Second L * n).
  { apply wrap64_le. nia. }
  rewrite sub64_exact; try assumption; [| apply wrap64_range].
  rewrite Z.max_r by lia. lia.
Qed.

Section Enforced.

Context {C : Type} {NC : NetConn C}.

(** X1. A [Read] through a wrapper without read timestamp (as [New]
    builds it), under a positive limit [L] and a clock that does not run
    backwards over the transfer: when the product of the time per byte and
    the count fits 64 bits, the transfer time [d] plus the time slept is
    the larger of [d] and [n * (1 second / L)].  The same for [Write].
    The allowed time [n * (1 second / L)] is at most the exact [n / L]
    seconds and less than [n] nanoseconds short of it. *)
Theorem throttled_operation_lasts_the_allowed_time
        (h : handle) (L other : int) (b : list byte) (w : World C) :
  0 < L ->
  clock w (ticks w) <= clock w (S (ticks w)) ->
  let d := time.Sub (clock w (S (ticks w))) (clock w (ticks w)) in
  let allowed := fun n : int => Z.quot time.Second L * n in
  (forall c' b' n err wt,
     conn_Read (conns w h) b = (c', b', n, err) ->
     in_int64 (allowed n) ->
     exists (rlc' : RateLimitedConn) (w' : World C),
       Read_body (mkRLC (connRef h) L other 0 wt) b w =
         Ok (rlc', (b', n, err)) w' /\
       d + (slept (trace w') - slept (trace w)) = Z.max d (allowed n)) /\
  (forall c' n err rt,
     conn_Write (conns w h) b = (c', n, err) ->
     in_int64 (allowed n) ->
     exists (rlc' : RateLimitedConn) (w' : World C),
       Write_body (mkRLC (connRef h) other L rt 0) b w =
         Ok (rlc', (n, err)) w' /\
       d + (slept (trace w') - slept (trace w)) = Z.max d (allowed n)) /\
  (forall n : int,
     0 < n ->
     time.Second * n - L * n < L * allowed n <= time.Second * n).
Proof.
  intros HL Hck. cbv zeta.
  pose proof (Sub_nonneg Hck) as Hd.
  pose proof (Sub_range (clock w (S (ticks w))) (clock w (ticks w))) as Hdr.
  split; [| split].
  - intros c' b' n err wt Hrd Hr.
    pose proof (Read_body_throttled h other 0 wt b w HL) as E.
    rewrite Hrd in E. cbv zeta in E. eexists _, _. split; [exact E |].
    cbn [trace]. rewrite slept_sleep_events.
    unfold slept at 1. cbn [sleeps]. rewrite sleeps_app, sleeps_init_events.
    cbn [app]. fold (slept (trace w)).
    pose proof (@sleep_step_exact L n _ HL Hd Hdr Hr) as S. cbv zeta in S.
    unfold completion, baseline, ticks_before_transfer. cbn [time.IsZero Z.eqb].
    lia.
  - intros c' n err rt Hwr Hr.
    pose proof (Write_body_throttled h other rt 0 b w HL) as E.
    rewrite Hwr in E. cbv zeta in E. eexists _, _. split; [exact E |].
    cbn [trace]. rewrite slept_sleep_events.
    unfold slept at 1. cbn [sleeps]. rewrite sleeps_app, sleeps_init_events.
    cbn [app]. fold (slept (trace w)).
    pose proof (@sleep_step_exact L n _ HL Hd Hdr Hr) as S. cbv zeta in S.
    unfold completion, baseline, ticks_before_transfer. cbn [time.IsZero Z.eqb].
    lia.
  - intros n Hn. apply second_rounding; assumption.
Qed.

End Enforced.

Lemma throttled_operation_lasts_the_allowed_time_witness :
  0 < 4096 /\
  clock two_packets (ticks two_packets) <=
    clock two_packets (S (ticks two_packets)) /\
  exists (rlc' : RateLimitedConn) (w' : World script),
    Read_body read4096 (buffer 1024) two_packets =
      Ok (rlc', (buffer 1024, 1024, None)) w' /\
    (T1 - T0) + (slept (trace w') - slept (trace two_packets)) =
    Z.max (T1 - T0) (244140 * 1024).
Proof.
  assert (H : 0 < 4096) by reflexivity.
  assert (Hck : clock two_packets (ticks two_packets) <=
                clock two_packets (S (ticks two_packets))).
  { vm_compute. discriminate. }
  split; [exact H |]. split; [exact Hck |].
  destruct (throttled_operation_lasts_the_allowed_time
              0%nat 0 (buffer 1024) two_packets H Hck) as [HR _].
  apply (HR [(1024, None)] (buffer 1024) 1024 None 0 eq_refl).
  vm_compute. split; discriminate.
Defined.

Section Edges.

Context {C : Type} {NC : NetConn C}.

(** X2. One second divided by a limit above 1000000000 bytes per second
    is 0 nanoseconds per byte: through a wrapper without timestamp, under
    a clock that does not run backwards over the transfer, [Read] and
    [Write] under such a limit never sleep, whatever the count. *)
Theorem limit_above_a_byte_per_nanosecond_never_sleeps
        (h : handle) (L other : int) (b : list byte) (w : World C) :
  time.Second < L ->
  clock w (ticks w) <= clock w (S (ticks w)) ->
  (forall c' b' n err wt,
     conn_Read (conns w h) b = (c', b', n, err) ->
     exists (rlc' : RateLimitedConn) (w' : World C),
       Read_body (mkRLC (connRef h) L other 0 wt) b w =
         Ok (rlc', (b', n, err)) w' /\
       sleeps (trace w') = sleeps (trace w)) /\
  (forall c' n err rt,
     conn_Write (conns w h) b = (c', n, err) ->
     exists (rlc' : RateLimitedConn) (w' : World C),
       Write_body (mkRLC (connRef h) other L rt 0) b w =
         Ok (rlc', (n, err)) w' /\
       sleeps (trace w') = sleeps (trace w)).
Proof.
  intros HL Hck.
  assert (HL0 : 0 < L) by (unfold time.Second in HL; lia).
  assert (Hq : Z.quot time.Second L = 0).
  { apply Z.quot_small. unfold time.Second in *. lia. }
  pose proof (Sub_nonneg Hck) as Hd.
  assert (Hs : forall n,
             sleep_events n
               (time.Sub (clock w (S (ticks w))) (clock w (ticks w)))
               (mul64 0 n) = []).
  { intros n. unfold sleep_events, mul64. rewrite Z.mul_0_l.
    change (wrap64 0) with 0.
    destruct (Z.ltb_spec
                (time.Sub (clock w (S (ticks w))) (clock w (ticks w))) 0);
      [lia |]. rewrite andb_false_r. reflexivity. }
  split.
  - intros c' b' n err wt Hrd.
    pose proof (Read_body_throttled h other 0 wt b w HL0) as E.
    rewrite Hrd, Hq in E. cbv zeta in E. eexists _, _. split; [exact E |].
    cbn [trace]. unfold completion, baseline, ticks_before_transfer.
    cbn [time.IsZero Z.eqb]. rewrite Hs. cbn [app sleeps].
    rewrite sleeps_app, sleeps_init_events. reflexivity.
  - intros c' n err rt Hwr.
    pose proof (Write_body_throttled h other rt 0 b w HL0) as E.
    rewrite Hwr, Hq in E. cbv zeta in E. eexists _, _. split; [exact E |].
    cbn [trace]. unfold completion, baseline, ticks_before_transfer.
    cbn [time.IsZero Z.eqb]. rewrite Hs. cbn [app sleeps].
    rewrite sleeps_app, sleeps_init_events. reflexivity.
Qed.

(** X3. [New] accepts a nil connection, and a wrapper around one cannot
    transfer: whatever its limits and timestamps, [Read] and [Write] panic
    on the nil interface, with no call on any connection and no sleep. *)
Theorem nil_connection_panics
        (rl wl : int) (rt wt : time.Time) (b : list byte) (w : World C) :
  (0 <= rl -> 0 <= wl ->
   New nilConn rl wl w = Ok (Some (mkRLC nilConn rl wl 0 0), None) w) /\
  (exists w' : World C,
     Read (mkRLC nilConn rl wl rt wt) b w = Panicked _ NilDereference w' /\
     transfers (trace w') = transfers (trace w) /\
     sleeps (trace w') = sleeps (trace w) /\
     conns w' = conns w) /\
  (exists w' : World C,
     Write (mkRLC nilConn rl wl rt wt) b w = Panicked _ NilDereference w' /\
     transfers (trace w') = transfers (trace w) /\
     sleeps (trace w') = sleeps (trace w) /\
     conns w' = conns w).
Proof.
  split; [| split].
  - intros Hr Hw. unfold New.
    destruct (Z.ltb_spec rl 0); [lia |].
    destruct (Z.ltb_spec wl 0); [lia | reflexivity].
  - unfold Read, value_receiver, Read_body. cbn [rlim rtime Conn].
    destruct (rl <=? 0); [| destruct (time.IsZero rt)];
      eexists; (split; [reflexivity | repeat split]).
  - unfold Write, value_receiver, Write_body. cbn [wlim wtime Conn].
    destruct (wl <=? 0); [| destruct (time.IsZero wt)];
      eexists; (split; [reflexivity | repeat split]).
Qed.

(** X4. [SetReadLimit] and [SetWriteLimit] answer a nil error exactly for
    a limit that is not negative, and their own message for a negative
    one.  Whatever the wrapper (its connection may be nil) and the limit,
    they return in the world they were called in: no call on the
    connection, no clock reading, no sleep, no panic. *)
Theorem set_limit_validates_and_touches_nothing
        (rlc : RateLimitedConn) (lim : int) (w : World C) :
  (exists err : error,
     SetReadLimit rlc lim w = Ok err w /\
     (err = None <-> 0 <= lim) /\
     (lim < 0 -> err = errors_New "read limit cannot be negative")) /\
  (exists err : error,
     SetWriteLimit rlc lim w = Ok err w /\
     (err = None <-> 0 <= lim) /\
     (lim < 0 -> err = errors_New "write limit cannot be negative")).
Proof.
  destruct (SetReadLimit_verdict rlc lim w) as [Rn Rp].
  destruct (SetWriteLimit_verdict rlc lim w) as [Wn Wp].
  destruct (Z.lt_ge_cases lim 0) as [H | H].
  - destruct (Rn H) as [_ ER]. destruct (Wn H) as [_ EW].
    split; eexists; (split; [eassumption |]);
      (split; [split; [discriminate | lia] | reflexivity]).
  - destruct (Rp H) as [_ ER]. destruct (Wp H) as [_ EW].
    split; eexists; (split; [eassumption |]);
      (split; [split; [lia | reflexivity] | lia]).
Qed.

End Edges.

Lemma limit_above_a_byte_per_nanosecond_never_sleeps_witness :
  time.Second < 2000000000 /\
  clock two_packets (ticks two_packets) <=
    clock two_packets (S (ticks two_packets)) /\
  exists (rlc' : RateLimitedConn) (w' : World script),
    Read_body (mkRLC (connRef 0%nat) 2000000000 0 0 0) (buffer 1024)
              two_packets =
      Ok (rlc', (buffer 1024, 1024, None)) w' /\
    sleeps (trace w') = sleeps (trace two_packets).
Proof.
  assert (H : time.Second < 2000000000) by reflexivity.
  assert (Hck : clock two_packets (ticks two_packets) <=
                clock two_packets (S (ticks two_packets))).
  { vm_compute. discriminate. }
  split; [exact H |]. split; [exact Hck |].
  destruct (limit_above_a_byte_per_nanosecond_never_sleeps
              0%nat 0 (buffer 1024) two_packets H Hck) as [HR _].
  exact (HR [(1024, None)] (buffer 1024) 1024 None 0 eq_refl).
Defined.

(** ** What the method bodies keep *)

Section Bodies.

Context {C : Type} {NC : NetConn C}.

Lemma Read_body_frame (rlc rlc' : RateLimitedConn) (b : list byte)
      (r : list byte * int * error) (w w' : World C) :
  Read_body rlc b w = Ok (rlc', r) w' ->
  Conn rlc' = Conn rlc /\ rlim rlc' = rlim rlc /\ wlim rlc' = wlim rlc /\
  wtime rlc' = wtime rlc /\ clock w' = clock w.
Proof.
  destruct rlc as [[| h] rl wl rt wt]; intros H.
  - exfalso. revert H. unfold Read_body. cbn [rlim rtime Conn].
    destruct (rl <=? 0); [| destruct (time.IsZero rt)]; discriminate.
  - destruct (Z.le_gt_cases rl 0) as [Hle | Hgt].
    + pose proof (Read_body_unlimited h wl rt wt b w Hle) as E.
      destruct (conn_Read (conns w h) b) as [[[c' b'] n] err].
      rewrite E in H. inversion H; subst. repeat split.
    + pose proof (Read_body_throttled h wl rt wt b w Hgt) as E.
      destruct (conn_Read (conns w h) b) as [[[c' b'] n] err].
      cbv zeta in E. rewrite E in H. inversion H; subst. repeat split.
Qed.

Lemma Write_body_frame (rlc rlc' : RateLimitedConn) (b : list byte)
      (r : int * error) (w w' : World C) :
  Write_body rlc b w = Ok (rlc', r) w' ->
  Conn rlc' = Conn rlc /\ rlim rlc' = rlim rlc /\ wlim rlc' = wlim rlc /\
  rtime rlc' = rtime rlc /\ clock w' = clock w.
Proof.
  destruct rlc as [[| h] rl wl rt wt]; intros H.
  - exfalso. revert H. unfold Write_body. cbn [wlim wtime Conn].
    destruct (wl <=? 0); [| destruct (time.IsZero wt)]; discriminate.
  - destruct (Z.le_gt_cases wl 0) as [Hle | Hgt].
    + pose proof (Write_body_unlimited h rl rt wt b w Hle) as E.
      destruct (conn_Write (conns w h) b) as [[c' n] err].
      rewrite E in H. inversion H; subst. repeat split.
    + pose proof (Write_body_throttled h rl rt wt b w Hgt) as E.
      destruct (conn_Write (conns w h) b) as [[c' n] err].
      cbv zeta in E. rewrite E in H. inversion H; subst. repeat split.
Qed.

(** X5. No method body stores a negative limit or another connection:
    started on a wrapper whose limits are not negative, the body of any of
    the four methods ends with the same embedded connection and with
    limits that are not negative; the bodies of [Read] and [Write] end
    with the limits they started with.  The clock of the world is not
    changed by a body. *)
Theorem method_bodies_keep_limits_valid
        (c : call) (rlc rlc' : RateLimitedConn) (r : result)
        (w w' : World C) :
  0 <= rlim rlc -> 0 <= wlim rlc ->
  body_of c rlc w = Ok (rlc', r) w' ->
  Conn rlc' = Conn rlc /\ 0 <= rlim rlc' /\ 0 <= wlim rlc' /\
  (is_transfer c = true -> rlim rlc' = rlim rlc /\ wlim rlc' = wlim rlc) /\
  clock w' = clock w.
Proof.
  intros Hr Hw H. destruct c as [b | b | lim | lim]; cbn [body_of] in H.
  - unfold bind in H.
    destruct (Read_body rlc b w) as [[rlc1 [[b' n] err]] w1 | p w1] eqn:E;
      [| discriminate].
    inversion H; subst. apply Read_body_frame in E.
    destruct E as (E1 & E2 & E3 & _ & E5). rewrite E1, E2, E3.
    repeat split; assumption.
  - unfold bind in H.
    destruct (Write_body rlc b w) as [[rlc1 [n err]] w1 | p w1] eqn:E;
      [| discriminate].
    inversion H; subst. apply Write_body_frame in E.
    destruct E as (E1 & E2 & E3 & _ & E5). rewrite E1, E2, E3.
    repeat split; assumption.
  - unfold bind, SetReadLimit_body, ret in H.
    destruct (Z.ltb_spec lim 0); inversion H; subst; cbn;
      repeat split; try assumption; discriminate.
  - unfold bind, SetWriteLimit_body, ret in H.
    destruct (Z.ltb_spec lim 0); inversion H; subst; cbn;
      repeat split; try assumption; discriminate.
Qed.

End Bodies.

Lemma method_bodies_keep_limits_valid_witness :
  0 <= rlim unlimited0 /\ 0 <= wlim unlimited0 /\
  body_of (CallSetReadLimit 4096) unlimited0 two_packets =
    Ok (set_rlim 4096 unlimited0, RetSet None) two_packets /\
  Conn (set_rlim 4096 unlimited0) = Conn unlimited0 /\
  0 <= rlim (set_rlim 4096 unlimited0) /\
  0 <= wlim (set_rlim 4096 unlimited0).
Proof.
  assert (Hr : 0 <= rlim unlimited0) by (vm_compute; discriminate).
  assert (Hw : 0 <= wlim unlimited0) by (vm_compute; discriminate).
  assert (E : body_of (CallSetReadLimit 4096) unlimited0 two_packets =
              Ok (set_rlim 4096 unlimited0, RetSet None) two_packets)
    by reflexivity.
  destruct (method_bodies_keep_limits_valid
              (CallSetReadLimit 4096) unlimited0 two_packets Hr Hw E)
    as (H1 & H2 & H3 & _).
  repeat split; assumption.
Defined.

(** ** Sequences of calls *)

Lemma total_app (l1 l2 : list Z) : total (l1 ++ l2) = total l1 + total l2.
Proof.
  induction l1 as [| x l1 IH]; cbn [app total fold_right]; [reflexivity |].
  fold (total (l1 ++ l2)). fold (total l1). rewrite IH. apply Z.add_assoc.
Qed.

Lemma slept_app (tr1 tr2 : list event) :
  slept (tr1 ++ tr2) = slept tr1 + slept tr2.
Proof. unfold slept. rewrite sleeps_app. apply total_app. Qed.

Lemma bytes_read_app (tr1 tr2 : list event) :
  bytes_read (tr1 ++ tr2) = bytes_read tr1 + bytes_read tr2.
Proof.
  induction tr1 as [| e tr1 IH]; [reflexivity |].
  destruct e; cbn [app bytes_read]; rewrite IH; lia.
Qed.

Lemma bytes_written_app (tr1 tr2 : list event) :
  bytes_written (tr1 ++ tr2) = bytes_written tr1 + bytes_written tr2.
Proof.
  induction tr1 as [| e tr1 IH]; [reflexivity |].
  destruct e; cbn [app bytes_written]; rewrite IH; lia.
Qed.

Lemma bytes_sleep_events (n : int) (d allowed : int64) :
  bytes_read (sleep_events n d allowed) = 0 /\
  bytes_written (sleep_events n d allowed) = 0.
Proof.
  unfold sleep_events.
  destruct ((n >? 0) && (d <? allowed)); split; reflexivity.
Qed.

Lemma totals_init_events {C} (rt : time.Time) (w : World C) :
  slept (init_events rt w) = 0 /\
  bytes_read (init_events rt w) = 0 /\
  bytes_written (init_events rt w) = 0.
Proof. unfold init_events. destruct (time.IsZero rt); repeat split. Qed.

(** The totals of the trace of one throttled operation, whose transfer
    event is [e]. *)
Lemma totals_of_operation {C} (n : int) (d allowed : int64) (t rt : time.Time)
      (e : event) (w : World C) :
  sleeps [e] = [] ->
  let tr := sleep_events n d allowed ++
            EvNow t :: e :: init_events rt w ++ trace w in
  slept tr =
    (if (n >? 0) && (d <? allowed) then sub64 allowed d else 0) +
    slept (trace w) /\
  bytes_read tr = bytes_read [e] + bytes_read (trace w) /\
  bytes_written tr = bytes_written [e] + bytes_written (trace w) /\
  List.length (transfers tr) =
    (List.length (transfers [e]) + List.length (transfers (trace w)))%nat.
Proof.
  intros He. cbv zeta.
  destruct (bytes_sleep_events n d allowed) as [B1 B2].
  destruct (totals_init_events rt w) as (I1 & I2 & I3).
  change (EvNow t :: e :: init_events rt w ++ trace w)
    with ([EvNow t] ++ [e] ++ init_events rt w ++ trace w).
  repeat split.
  - rewrite slept_sleep_events, !slept_app, I1.
    unfold slept at 2. rewrite He. cbn. lia.
  - rewrite !bytes_read_app, B1, I2. cbn [bytes_read]. lia.
  - rewrite !bytes_written_app, B2, I3. cbn [bytes_written]. lia.
  - rewrite !transfers_app, transfers_sleep_events, transfers_init_events.
    cbn [transfers app]. rewrite !length_app. cbn [List.length]. lia.
Qed.

Section Sequences.

Context {C : Type} {NC : NetConn C}.

Lemma invoke_setter_step (rlc : RateLimitedConn) (c : call) (w : World C) :
  is_transfer c = false -> exists r, invoke rlc c w = Ok r w.
Proof.
  destruct c as [b | b | lim | lim]; try discriminate; intros _;
    cbn [invoke]; unfold bind.
  - destruct (SetReadLimit_world rlc lim w) as [err ->]. eexists. reflexivity.
  - destruct (SetWriteLimit_world rlc lim w) as [err ->]. eexists. reflexivity.
Qed.

(** One call through a wrapper around a connection object. *)
Lemma invoke_step (h : handle) (rl wl : int) (rt wt : time.Time) (c : call)
      (w : World C) :
  exists (r : result) (w1 : World C),
    invoke (mkRLC (connRef h) rl wl rt wt) c w = Ok r w1 /\
    clock w1 = clock w /\
    List.length (transfers (trace w1)) =
      ((if is_transfer c then 1 else 0) +
       List.length (transfers (trace w)))%nat.
Proof.
  destruct c as [b | b | lim | lim].
  - cbn [invoke is_transfer]. unfold bind.
    destruct (Z.le_gt_cases rl 0) as [Hle | Hgt].
    + pose proof (Read_body_unlimited h wl rt wt b w Hle) as E.
      destruct (conn_Read (conns w h) b) as [[[c' b'] n] err].
      rewrite (Read_Ok _ _ _ E). eexists _, _. split; [reflexivity |].
      split; reflexivity.
    + pose proof (Read_body_throttled h wl rt wt b w Hgt) as E.
      destruct (conn_Read (conns w h) b) as [[[c' b'] n] err].
      cbv zeta in E. rewrite (Read_Ok _ _ _ E).
      eexists _, _. split; [reflexivity |]. split; [reflexivity |].
      cbn [trace]. apply totals_of_operation. reflexivity.
  - cbn [invoke is_transfer]. unfold bind.
    destruct (Z.le_gt_cases wl 0) as [Hle | Hgt].
    + pose proof (Write_body_unlimited h rl rt wt b w Hle) as E.
      destruct (conn_Write (conns w h) b) as [[c' n] err].
      rewrite (Write_Ok _ _ _ E). eexists _, _. split; [reflexivity |].
      split; reflexivity.
    + pose proof (Write_body_throttled h rl rt wt b w Hgt) as E.
      destruct (conn_Write (conns w h) b) as [[c' n] err].
      cbv zeta in E. rewrite (Write_Ok _ _ _ E).
      eexists _, _. split; [reflexivity |]. split; [reflexivity |].
      cbn [trace]. apply totals_of_operation. reflexivity.
  - destruct (@invoke_setter_step (mkRLC (connRef h) rl wl rt wt)
                (CallSetReadLimit lim) w eq_refl) as [r E].
    exists r, w. repeat split. exact E.
  - destruct (@invoke_setter_step (mkRLC (connRef h) rl wl rt wt)
                (CallSetWriteLimit lim) w eq_refl) as [r E].
    exists r, w. repeat split. exact E.
Qed.

(** X6. Through a wrapper around a connection object no sequence of calls
    panics: every call answers, the calls on the connection are as many as
    the [Read] and [Write] calls of the sequence (one each, none retried
    and none skipped, whatever the errors and counts answered), and the
    caller's wrapper is unchanged. *)
Theorem calls_transfer_once_each
        (cs : list call) (h : handle) (rl wl : int) (rt wt : time.Time)
        (w : World C) :
  exists (rs : list result) (w' : World C),
    run cs (mkRLC (connRef h) rl wl rt wt) w =
      Ok (mkRLC (connRef h) rl wl rt wt, rs) w' /\
    List.length rs = List.length cs /\
    List.length (transfers (trace w')) =
      (List.length (filter is_transfer cs) +
       List.length (transfers (trace w)))%nat.
Proof.
  revert w. induction cs as [| c cs IH]; intros w.
  - exists [], w. repeat split.
  - destruct (invoke_step h rl wl rt wt c w) as (r & w1 & E & _ & Ht).
    destruct (IH w1) as (rs & w' & E' & Hl & Ht').
    exists (r :: rs), w'. cbn [run]. unfold bind at 1. rewrite E.
    unfold bind. rewrite E'. split; [reflexivity |].
    split; [cbn [List.length]; lia |].
    rewrite Ht', Ht. cbn [filter].
    destruct (is_transfer c); cbn [List.length]; lia.
Qed.

End Sequences.

Section SleepBound.

Context {C : Type} {NC : NetConn C}.

(** One call through a wrapper as [New] builds it, under a clock that
    never runs backwards. *)
Lemma invoke_fresh_step (h : handle) (rl wl : int) (c : call) (w : World C) :
  clock_monotone w -> 0 <= rl -> 0 <= wl ->
  exists (r : result) (w1 : World C),
    invoke (mkRLC (connRef h) rl wl 0 0) c w = Ok r w1 /\
    clock w1 = clock w /\
    0 <= bytes_read (trace w1) - bytes_read (trace w) /\
    0 <= bytes_written (trace w1) - bytes_written (trace w) /\
    0 <= slept (trace w1) - slept (trace w) <=
      Z.quot time.Second rl * (bytes_read (trace w1) - bytes_read (trace w)) +
      Z.quot time.Second wl *
        (bytes_written (trace w1) - bytes_written (trace w)).
Proof.
  intros Hmono Hrl Hwl.
  assert (Hd : 0 <= time.Sub (clock w (S (ticks w))) (clock w (ticks w))).
  { apply Sub_nonneg, Hmono. apply Nat.le_succ_diag_r. }
  pose proof (Sub_range (clock w (S (ticks w))) (clock w (ticks w))) as Hdr.
  destruct c as [b | b | lim | lim].
  - cbn [invoke]. unfold bind.
    destruct (Z.le_gt_cases rl 0) as [Hle | Hgt].
    + pose proof (Read_body_unlimited h wl 0 0 b w Hle) as E.
      destruct (conn_Read (conns w h) b) as [[[c' b'] n] err].
      rewrite (Read_Ok _ _ _ E). eexists _, _. split; [reflexivity |].
      split; [reflexivity |]. cbn [trace bytes_read bytes_written].
      unfold slept. cbn [sleeps].
      replace rl with 0 by lia. change (Z.quot time.Second 0) with 0. lia.
    + pose proof (Read_body_throttled h wl 0 0 b w Hgt) as E.
      destruct (conn_Read (conns w h) b) as [[[c' b'] n] err].
      cbv zeta in E. rewrite (Read_Ok _ _ _ E).
      eexists _, _. split; [reflexivity |]. split; [reflexivity |].
      cbn [trace].
      match goal with
      | |- context [sleep_events n ?d ?a ++ EvNow ?t :: ?e :: _] =>
          destruct (@totals_of_operation C n d a t 0 e w eq_refl)
            as (S1 & S2 & S3 & _)
      end.
      rewrite S1, S2, S3. cbn [bytes_read bytes_written].
      pose proof (@sleep_step_bound rl n _ Hgt Hd Hdr) as B. cbv zeta in B.
      unfold completion, baseline, ticks_before_transfer.
      cbn [time.IsZero Z.eqb]. lia.
  - cbn [invoke]. unfold bind.
    destruct (Z.le_gt_cases wl 0) as [Hle | Hgt].
    + pose proof (Write_body_unlimited h rl 0 0 b w Hle) as E.
      destruct (conn_Write (conns w h) b) as [[c' n] err].
      rewrite (Write_Ok _ _ _ E). eexists _, _. split; [reflexivity |].
      split; [reflexivity |]. cbn [trace bytes_read bytes_written].
      unfold slept. cbn [sleeps].
      replace wl with 0 by lia. change (Z.quot time.Second 0) with 0. lia.
    + pose proof (Write_body_throttled h rl 0 0 b w Hgt) as E.
      destruct (conn_Write (conns w h) b) as [[c' n] err].
      cbv zeta in E. rewrite (Write_Ok _ _ _ E).
      eexists _, _. split; [reflexivity |]. split; [reflexivity |].
      cbn [trace].
      match goal with
      | |- context [sleep_events n ?d ?a ++ EvNow ?t :: ?e :: _] =>
          destruct (@totals_of_operation C n d a t 0 e w eq_refl)
            as (S1 & S2 & S3 & _)
      end.
      rewrite S1, S2, S3. cbn [bytes_read bytes_written].
      pose proof (@sleep_step_bound wl n _ Hgt Hd Hdr) as B. cbv zeta in B.
      unfold completion, baseline, ticks_before_transfer.
      cbn [time.IsZero Z.eqb]. lia.
  - destruct (@invoke_setter_step C NC (mkRLC (connRef h) rl wl 0 0)
                (CallSetReadLimit lim) w eq_refl) as [r E].
    exists r, w. split; [exact E |]. split; [reflexivity |]. lia.
  - destruct (@invoke_setter_step C NC (mkRLC (connRef h) rl wl 0 0)
                (CallSetWriteLimit lim) w eq_refl) as [r E].
    exists r, w. split; [exact E |]. split; [reflexivity |]. lia.
Qed.

(** X7. The wrapper never holds a caller up for longer than the limits
    allow.  Through a wrapper as [New] builds it (limits not negative, no
    timestamps), under a clock that never runs backwards, any sequence of
    calls sleeps in total at most [1 second / readLimit] for every byte
    read plus [1 second / writeLimit] for every byte written (nothing for
    a limit of 0), and never a negative time. *)
Theorem total_sleep_is_bounded_by_the_limits
        (cs : list call) (h : handle) (rl wl : int) (w : World C) :
  clock_monotone w -> 0 <= rl -> 0 <= wl ->
  exists (rs : list result) (w' : World C),
    run cs (mkRLC (connRef h) rl wl 0 0) w =
      Ok (mkRLC (connRef h) rl wl 0 0, rs) w' /\
    0 <= slept (trace w') - slept (trace w) <=
      Z.quot time.Second rl * (bytes_read (trace w') - bytes_read (trace w)) +
      Z.quot time.Second wl *
        (bytes_written (trace w') - bytes_written (trace w)).
Proof.
  intros Hmono Hrl Hwl. revert w Hmono.
  induction cs as [| c cs IH]; intros w Hmono.
  - exists [], w. split; [reflexivity | lia].
  - destruct (invoke_fresh_step h c Hmono Hrl Hwl)
      as (r & w1 & E & Hck & Hbr & Hbw & Hs).
    assert (Hmono1 : clock_monotone w1).
    { unfold clock_monotone. rewrite Hck. exact Hmono. }
    destruct (IH w1 Hmono1) as (rs & w' & E' & Hs').
    exists (r :: rs), w'. cbn [run]. unfold bind at 1. rewrite E.
    unfold bind. rewrite E'. split; [reflexivity |]. nia.
Qed.

End SleepBound.

Lemma ticking_world_monotone : clock_monotone ticking_world.
Proof.
  intros i j Hij. cbn [clock ticking_world].
  apply Z.add_le_mono_l, Z.mul_le_mono_nonneg_l; [discriminate |].
  apply Nat2Z.inj_le. exact Hij.
Defined.

Lemma total_sleep_is_bounded_by_the_limits_witness :
  clock_monotone ticking_world /\ 0 <= 0 /\ 0 <= 4096 /\
  exists (rs : list result) (w' : World Z),
    run [CallWrite (buffer 1024); CallWrite (buffer 1024)]
        write4096 ticking_world = Ok (write4096, rs) w' /\
    0 <= slept (trace w') - slept (trace ticking_world) <=
      Z.quot time.Second 0 *
        (bytes_read (trace w') - bytes_read (trace ticking_world)) +
      Z.quot time.Second 4096 *
        (bytes_written (trace w') - bytes_written (trace ticking_world)).
Proof.
  assert (H0 : 0 <= 0) by discriminate.
  assert (H1 : 0 <= 4096) by discriminate.
  split; [exact ticking_world_monotone |].
  split; [exact H0 |]. split; [exact H1 |].
  exact (total_sleep_is_bounded_by_the_limits
           [CallWrite (buffer 1024); CallWrite (buffer 1024)] 0%nat
           ticking_world_monotone H0 H1).
Defined.

(** ** The client of the connection test *)

Lemma make_bytes_length (lpack : int) :
  0 <= lpack -> Z.of_nat (List.length (make_bytes lpack)) = lpack.
Proof.
  intros H. unfold make_bytes. rewrite repeat_length. apply Z2Nat.id, H.
Qed.

Section Client.

Context {C : Type} {NC : NetConn C}.

Hypothesis full : writes_in_full C.

(** One iteration's [Write] through an unlimited wrapper. *)
Lemma client_write_unlimited (h : handle) (lpack : int) (w : World C) :
  0 <= lpack ->
  exists w1 : World C,
    Write (mkRLC (connRef h) 0 0 0 0) (make_bytes lpack) w =
      Ok (lpack, None) w1 /\
    clock w1 = clock w /\ ticks w1 = ticks w /\
    trace w1 = EvWrite h (make_bytes lpack) lpack None :: trace w.
Proof.
  intros Hl.
  pose proof (Write_body_unlimited h 0 0 0 (make_bytes lpack) w (Z.le_refl 0))
    as E.
  destruct (full (conns w h) (make_bytes lpack)) as [c' Hc].
  rewrite Hc, (make_bytes_length Hl) in E.
  eexists. split; [apply (Write_Ok _ _ _ E) |]. repeat split.
Qed.

(** One iteration's [Write] through a wrapper with a positive write
    limit. *)
Lemma client_write_throttled (h : handle) (wl lpack : int) (w : World C) :
  0 < wl -> 0 <= lpack ->
  let t0 := clock w (ticks w) in
  let t1 := clock w (S (ticks w)) in
  exists w1 : World C,
    Write (mkRLC (connRef h) 0 wl 0 0) (make_bytes lpack) w =
      Ok (lpack, None) w1 /\
    clock w1 = clock w /\ ticks w1 = S (S (ticks w)) /\
    trace w1 =
      sleep_events lpack (time.Sub t1 t0)
                   (mul64 (Z.quot time.Second wl) lpack) ++
      EvNow t1 :: EvWrite h (make_bytes lpack) lpack None ::
      init_events 0 w ++ trace w.
Proof.
  intros Hwl Hl. cbv zeta.
  pose proof (Write_body_throttled h 0 0 0 (make_bytes lpack) w Hwl) as E.
  destruct (full (conns w h) (make_bytes lpack)) as [c' Hc].
  rewrite Hc, (make_bytes_length Hl) in E. cbv zeta in E.
  eexists. split; [apply (Write_Ok _ _ _ E) |]. repeat split.
Qed.

End Client.

Lemma sleep_step_in_time (L n : Z) (t0 t1 : time.Time) :
  0 < L -> 0 <= n -> in_int64 (Z.quot time.Second L * n) ->
  t0 <= t1 -> t1 - t0 <= Z.quot time.Second L * n ->
  let d := time.Sub t1 t0 in
  let allowed := mul64 (Z.quot time.Second L) n in
  (if (n >? 0) && (d <? allowed) then sub64 allowed d else 0) = allowed - d /\
  allowed = Z.quot time.Second L * n.
Proof.
  intros HL Hn Hr Hle Hin. cbv zeta.
  assert (Hd : in_int64 (t1 - t0)).
  { unfold in_int64, min_int64 in *. lia. }
  rewrite (Sub_exact _ _ Hd), (mul64_exact _ _ Hr). split; [| reflexivity].
  destruct (Z.gtb_spec n 0) as [Hpos | Hz]; cbn [andb].
  - destruct (Z.ltb_spec (t1 - t0) (Z.quot time.Second L * n)); [| lia].
    apply sub64_exact; try assumption; lia.
  - assert (n = 0) by lia. subst n. rewrite Z.mul_0_r in *. lia.
Qed.

Section ClientLoop.

Context {C : Type} {NC : NetConn C}.

Hypothesis full : writes_in_full C.

Lemma client_loop_unlimited (h : handle) (lpack : int) (k : nat)
      (t : list report) (w : World C) :
  0 <= lpack ->
  exists w' : World C,
    testClient_loop (mkRLC (connRef h) 0 0 0 0) lpack k t w = Ok t w' /\
    clock w' = clock w /\ ticks w' = ticks w /\
    slept (trace w') = slept (trace w) /\
    bytes_written (trace w') = bytes_written (trace w) + Z.of_nat k * lpack /\
    List.length (transfers (trace w')) =
      (k + List.length (transfers (trace w)))%nat.
Proof.
  intros Hl. revert w. induction k as [| k IH]; intros w.
  - exists w. cbn [testClient_loop]. repeat split. lia.
  - destruct (client_write_unlimited full h w Hl)
      as (w1 & E & Hck & Htk & Htr).
    destruct (IH w1) as (w' & E' & Hck' & Htk' & Hs & Hb & Hn).
    exists w'. cbn [testClient_loop]. unfold bind. rewrite E.
    rewrite Z.eqb_refl. split; [exact E' |].
    rewrite Hck', Htk', Hs, Hb, Hn, Hck, Htk, Htr.
    cbn [bytes_written transfers List.length]. unfold slept. cbn [sleeps].
    repeat split; lia.
Qed.

Lemma client_loop_throttled (h : handle) (wl lpack : int) (k : nat)
      (t : list report) (w : World C) :
  0 < wl -> 0 <= lpack ->
  exists w' : World C,
    testClient_loop (mkRLC (connRef h) 0 wl 0 0) lpack k t w = Ok t w' /\
    clock w' = clock w /\ ticks w' = (2 * k + ticks w)%nat /\
    bytes_written (trace w') = bytes_written (trace w) + Z.of_nat k * lpack /\
    List.length (transfers (trace w')) =
      (k + List.length (transfers (trace w)))%nat /\
    (in_int64 (Z.quot time.Second wl * lpack) ->
     transfers_in_time (clock w) (ticks w) k (Z.quot time.Second wl * lpack) ->
     slept (trace w') - slept (trace w) =
       Z.of_nat k * (Z.quot time.Second wl * lpack) -
       busy (clock w) (ticks w) k).
Proof.
  intros Hwl Hl. revert w. induction k as [| k IH]; intros w.
  - exists w. cbn [testClient_loop busy]. repeat split; lia.
  - destruct (client_write_throttled full h w Hwl Hl)
      as (w1 & E & Hck & Htk & Htr).
    destruct (IH w1) as (w' & E' & Hck' & Htk' & Hb & Hn & Hs).
    destruct (@totals_of_operation C lpack
                (time.Sub (clock w (S (ticks w))) (clock w (ticks w)))
                (mul64 (Z.quot time.Second wl) lpack)
                (clock w (S (ticks w))) 0
                (EvWrite h (make_bytes lpack) lpack None) w eq_refl)
      as (S1 & _ & S3 & S4).
    rewrite <- Htr in S1, S3, S4.
    exists w'. cbn [testClient_loop]. unfold bind. rewrite E.
    rewrite Z.eqb_refl. split; [exact E' |].
    split; [congruence |]. split; [lia |].
    split; [rewrite Hb, S3; cbn [bytes_written]; lia |].
    split; [rewrite Hn, S4; cbn [transfers List.length]; lia |].
    intros Hr Hin.
    assert (Hin' : transfers_in_time (clock w1) (ticks w1) k
                     (Z.quot time.Second wl * lpack)).
    { intros i Hi. rewrite Hck, Htk. specialize (Hin (S i) ltac:(lia)).
      replace (S (S (ticks w)) + 2 * i)%nat with (ticks w + 2 * S i)%nat
        by lia. exact Hin. }
    specialize (Hs Hr Hin').
    destruct (Hin 0%nat ltac:(lia)) as [H0 H1].
    replace (ticks w + 2 * 0)%nat with (ticks w) in H0, H1 by lia.
    destruct (@sleep_step_in_time wl lpack _ _ Hwl Hl Hr H0 H1) as [X1 X2].
    unfold int64, int, time.Duration, time.Time in S1, X1.
    rewrite X1, X2 in S1. rewrite Hck, Htk in Hs. cbn [busy]. lia.
Qed.

(** X8. The client of the connection test, on a connection whose writes
    always take the whole buffer, for a packet length that is not
    negative.  With a negative write limit it stops on the error of [New]
    before any write.  Otherwise it ends without a report, having made one
    write per packet and written [npack * lpack] bytes in all; with a
    write limit of 0 it neither sleeps nor reads the clock, with a
    positive one it reads the clock twice per packet. *)
Theorem testClient_delivers_every_packet
        (h : handle) (wlim npack lpack : int) (w : World C) :
  0 <= lpack ->
  (wlim < 0 ->
   testClient_dump (connRef h) wlim npack lpack w =
     Ok [ReportError "read/write limits cannot be negative"] w) /\
  (0 <= wlim ->
   exists w' : World C,
     testClient_dump (connRef h) wlim npack lpack w = Ok [] w' /\
     bytes_written (trace w') =
       bytes_written (trace w) + Z.max 0 npack * lpack /\
     List.length (transfers (trace w')) =
       (Z.to_nat npack + List.length (transfers (trace w)))%nat /\
     (wlim = 0 -> ticks w' = ticks w /\ slept (trace w') = slept (trace w)) /\
     (0 < wlim -> ticks w' = (2 * Z.to_nat npack + ticks w)%nat)).
Proof.
  intros Hl. split.
  - intros Hneg. unfold testClient_dump, New, bind. cbn [Z.ltb Z.compare orb].
    destruct (Z.ltb_spec wlim 0); [reflexivity | lia].
  - intros Hw. unfold testClient_dump, New, bind. cbn [Z.ltb Z.compare orb].
    destruct (Z.ltb_spec wlim 0); [lia |]. cbn [ret].
    destruct (Z.le_gt_cases wlim 0) as [Hz | Hpos].
    + assert (wlim = 0) by lia. subst wlim.
      destruct (client_loop_unlimited h (Z.to_nat npack) [] w Hl)
        as (w' & E & _ & Htk & Hs & Hb & Hn).
      exists w'. split; [exact E |]. split; [rewrite Hb; lia |].
      split; [exact Hn |]. split; [intros _; split; assumption | lia].
    + destruct (client_loop_throttled h (Z.to_nat npack) [] w Hpos Hl)
        as (w' & E & _ & Htk & Hb & Hn & _).
      exists w'. split; [exact E |]. split; [rewrite Hb; lia |].
      split; [exact Hn |]. split; [lia | intros _; exact Htk].
Qed.

(** X9. The client of the connection test under a positive write limit,
    on a connection whose writes always take the whole buffer: when every
    write returns within the time allowed for a packet (and the clock does
    not run backwards over it), the client sleeps in all the allowed time
    of the [npack] packets, [npack * lpack * (1 second / wlim)], less the
    time the writes themselves took. *)
Theorem testClient_sleeps_the_allowed_time
        (h : handle) (wlim npack lpack : int) (w : World C) :
  0 < wlim -> 0 <= lpack ->
  in_int64 (Z.quot time.Second wlim * lpack) ->
  transfers_in_time (clock w) (ticks w) (Z.to_nat npack)
                    (Z.quot time.Second wlim * lpack) ->
  exists w' : World C,
    testClient_dump (connRef h) wlim npack lpack w = Ok [] w' /\
    slept (trace w') - slept (trace w) =
      Z.max 0 npack * (Z.quot time.Second wlim * lpack) -
      busy (clock w) (ticks w) (Z.to_nat npack).
Proof.
  intros Hpos Hl Hr Hin. unfold testClient_dump, New, bind.
  cbn [Z.ltb Z.compare orb].
  destruct (Z.ltb_spec wlim 0); [lia |]. cbn [ret].
  destruct (client_loop_throttled h (Z.to_nat npack) [] w Hpos Hl)
    as (w' & E & _ & _ & _ & _ & Hs).
  exists w'. split; [exact E |]. rewrite (Hs Hr Hin).
  replace (Z.of_nat (Z.to_nat npack)) with (Z.max 0 npack) by lia.
  reflexivity.
Qed.

End ClientLoop.

Lemma sink_writes_in_full : writes_in_full Z.
Proof. intros c b. eexists. reflexivity. Defined.

Lemma ticking_world_in_time (k : nat) :
  transfers_in_time (clock ticking_world) (ticks ticking_world) k
                    (Z.quot time.Second 4096 * 1024).
Proof.
  intros i _. cbn [clock ticks ticking_world].
  change (Z.quot time.Second 4096 * 1024) with 249999360.
  rewrite Nat2Z.inj_succ. lia.
Defined.

Lemma testClient_delivers_every_packet_witness :
  writes_in_full Z /\ 0 <= 1024 /\ 0 <= 4096 /\
  exists w' : World Z,
    testClient_dump (connRef 0%nat) 4096 8 1024 ticking_world = Ok [] w' /\
    bytes_written (trace w') = bytes_written (trace ticking_world) + 8 * 1024.
Proof.
  assert (Hl : 0 <= 1024) by discriminate.
  assert (Hw : 0 <= 4096) by discriminate.
  split; [exact sink_writes_in_full |].
  split; [exact Hl |]. split; [exact Hw |].
  destruct (@testClient_delivers_every_packet Z SinkConn sink_writes_in_full
              0%nat 4096 8 1024 ticking_world Hl) as [_ H].
  destruct (H Hw) as (w' & E & Hb & _).
  exists w'. split; [exact E | exact Hb].
Defined.

(** The second row of the test table: 8 packets of 1024 bytes under a
    write limit of 4096 bytes per second, every write taking 1 ms. *)
Lemma testClient_sleeps_the_allowed_time_witness :
  writes_in_full Z /\ 0 < 4096 /\ 0 <= 1024 /\
  in_int64 (Z.quot time.Second 4096 * 1024) /\
  transfers_in_time (clock ticking_world) (ticks ticking_world) (Z.to_nat 8)
                    (Z.quot time.Second 4096 * 1024) /\
  exists w' : World Z,
    testClient_dump (connRef 0%nat) 4096 8 1024 ticking_world = Ok [] w' /\
    slept (trace w') - slept (trace ticking_world) = 1999994880 - 8000000.
Proof.
  assert (Hp : 0 < 4096) by reflexivity.
  assert (Hl : 0 <= 1024) by discriminate.
  assert (Hr : in_int64 (Z.quot time.Second 4096 * 1024)).
  { vm_compute. split; discriminate. }
  split; [exact sink_writes_in_full |].
  split; [exact Hp |]. split; [exact Hl |]. split; [exact Hr |].
  split; [exact (@ticking_world_in_time (Z.to_nat 8)) |].
  exact (@testClient_sleeps_the_allowed_time Z SinkConn sink_writes_in_full
           0%nat 4096 8 1024 ticking_world Hp Hl Hr
           (@ticking_world_in_time (Z.to_nat 8))).
Defined.
